(** * Google Photos metadata restorer: a model of [process_google_photos.py]

    The development follows the layout of the script:
    - [PyStr]     Python [str] values and the string methods the script calls;
    - [Sanitize]  [clean_name];
    - [Py]        exceptions, parsed JSON values and the builtins applied to
                  them;
    - [Calendar]  the proleptic Gregorian calendar of [datetime];
    - [Extract]   [get_taken_time] and [get_gps];
    - [Fs]        paths, the file tree and [unique_path];
    - [Pipeline]  [write_metadata] and the per-file body of [main].
    Definitions come first, the theorems about them follow. *)

From Stdlib Require Import ZArith NArith Lia List String Ascii.
From Stdlib Require Import DecimalString DecimalNat.
From Stdlib Require Import Floats.SpecFloat.
From stdpp Require Import base gmap list.

Set Warnings "-register-all".
Local Open Scope N_scope.

(** ** Python strings

    A Python [str] is a sequence of Unicode code points.  A code point is a
    number; a string is a list of them, so that the whitespace class of
    [\s] and of [str.strip()] is the real one and not its ASCII part. *)

Module PyStr.

Abbreviation char := N (only parsing).
Abbreviation str := (list N) (only parsing).

(** ASCII literals of the script, written as Rocq strings. *)
Definition lit (s : string) : str := map N_of_ascii (list_ascii_of_string s).
Arguments lit s%_string : simpl never.

(** [Py_UNICODE_ISSPACE]: the class used by [str.strip()], [str.isspace()]
    and by [\s] in a [str] pattern of [re]. *)
Definition isspace (c : char) : bool :=
  ((9 <=? c) && (c <=? 13)) || ((28 <=? c) && (c <=? 32))
  || (c =? 133) || (c =? 160) || (c =? 5760)
  || ((8192 <=? c) && (c <=? 8202))
  || (c =? 8232) || (c =? 8233) || (c =? 8239) || (c =? 8287)
  || (c =? 12288).

Fixpoint drop_while {A} (f : A -> bool) (l : list A) : list A :=
  match l with
  | [] => []
  | x :: t => if f x then drop_while f t else l
  end.

(** [s.lstrip(chars)] and [s.rstrip(chars)], the set [chars] as a test. *)
Definition lstrip_by (f : char -> bool) (s : str) : str := drop_while f s.
Definition rstrip_by (f : char -> bool) (s : str) : str :=
  rev (drop_while f (rev s)).

(** [s.strip()] *)
Definition strip (s : str) : str := lstrip_by isspace (rstrip_by isspace s).

Definition is_empty (s : str) : bool :=
  match s with [] => true | _ => false end.

End PyStr.

Import PyStr.

(** ** [clean_name] *)

Module Sanitize.

Definition hyphen : char := 45.
Definition space : char := 32.
Definition period : char := 46.

(** The character class of the first pattern: backslash, slash, colon,
    star, question mark, double quote, less, greater, bar. *)
Definition illegal (c : char) : bool :=
  (c =? 92) || (c =? 47) || (c =? 58) || (c =? 42) || (c =? 63)
  || (c =? 34) || (c =? 60) || (c =? 62) || (c =? 124).

(** The first [re.sub]: each character of the class becomes a hyphen. *)
Definition sub_illegal (s : str) : str :=
  map (fun c => if illegal c then hyphen else c) s.

(** The second [re.sub], pattern [\s+]: every maximal run of whitespace
    becomes one space.  The space is emitted at the last character of the
    run. *)
Fixpoint sub_spaces (s : str) : str :=
  match s with
  | [] => []
  | c :: t =>
      if isspace c then
        match t with
        | [] => [space]
        | d :: _ => if isspace d then sub_spaces t else space :: sub_spaces t
        end
      else c :: sub_spaces t
  end.

(** The set given to [rstrip]: period and space. *)
Definition dot_or_space (c : char) : bool := (c =? period) || (c =? space).

Definition unknown_album : str := lit "Unknown Album".

Definition clean_name (name : str) : str :=
  if is_empty name then unknown_album
  else
    let name := sub_illegal name in
    let name := strip (sub_spaces name) in
    rstrip_by dot_or_space name.

(** Whitespace in normal form: every whitespace character is a space and
    no two of them are adjacent. *)
Fixpoint spaced (s : str) : bool :=
  match s with
  | [] => true
  | c :: t =>
      (if isspace c then
         (c =? space)
         && match t with d :: _ => negb (isspace d) | [] => true end
       else true)
      && spaced t
  end.

(** No character of the illegal class occurs. *)
Definition legal (s : str) : Prop := Forall (fun c => illegal c = false) s.

(** A character that the last steps can remove: whitespace or a period. *)
Definition blank (c : char) : bool := isspace c || (c =? period).

End Sanitize.

Import Sanitize.

(** ** Exceptions, JSON values and builtins *)

Module Py.

(** The exception classes that the modelled operations raise.  Messages
    are not modelled. *)
Inductive exn :=
| AttributeError | TypeError | ValueError | OverflowError | KeyError
| IndexError | JSONDecodeError | FileNotFoundError | FileExistsError
| NotADirectoryError | IsADirectoryError | OSError | UnicodeEncodeError.

Inductive result (A : Type) :=
| Ok (a : A)
| Raise (e : exn).
Arguments Ok {A} a.
Arguments Raise {A} e.

Definition bind {A B} (r : result A) (k : A -> result B) : result B :=
  match r with
  | Ok a => k a
  | Raise e => Raise e
  end.

(** What [json.load] returns: [None], [bool], [int], [float], [str],
    [list] and [dict] with string keys. *)
Inductive value :=
| VNone
| VBool (b : bool)
| VInt (z : Z)
| VFloat (f : spec_float)
| VStr (s : str)
| VList (l : list value)
| VDict (m : gmap str value).

(** Truth value of an object, as tested by [if x] and [not x]. *)
Definition truthy (v : value) : bool :=
  match v with
  | VNone => false
  | VBool b => b
  | VInt z => negb (z =? 0)%Z
  | VFloat (S754_zero _) => false
  | VFloat _ => true
  | VStr s => negb (is_empty s)
  | VList l => match l with [] => false | _ => true end
  | VDict m => negb (Nat.eqb (size m) 0)
  end.

(** [d.get(key, default)]; only a [dict] has the method. *)
Definition dict_get (d : value) (key : str) (default : value) : result value :=
  match d with
  | VDict m =>
      match m !! key with
      | Some v => Ok v
      | None => Ok default
      end
  | _ => Raise AttributeError
  end.

(** [x == 0] *)
Definition eq_zero (v : value) : bool :=
  match v with
  | VInt z => (z =? 0)%Z
  | VBool b => negb b
  | VFloat (S754_zero _) => true
  | _ => false
  end.

(** [x >= 0]; ordering a non-number against an [int] raises. *)
Definition ge_zero (v : value) : result bool :=
  match v with
  | VInt z => Ok (0 <=? z)%Z
  | VBool _ => Ok true
  | VFloat (S754_zero _) => Ok true
  | VFloat (S754_infinity s) => Ok (negb s)
  | VFloat S754_nan => Ok false
  | VFloat (S754_finite s _ _) => Ok (negb s)
  | _ => Raise TypeError
  end.

Definition is_digit (c : char) : bool := (48 <=? c) && (c <=? 57).
Definition underscore : char := 95.

(** [Py_ISSPACE]: the whitespace that [int] skips around an ASCII
    literal. *)
Definition ascii_space (c : char) : bool :=
  ((9 <=? c) && (c <=? 13)) || (c =? 32).

(** The digit zero of every script with decimal digits (the Unicode 14
    table of Python 3.11); the nine code points after each are its digits
    one to nine. *)
Definition DECIMAL_ZEROS : list N :=
  [48; 1632; 1776; 1984; 2406; 2534; 2662; 2790; 2918; 3046; 3174; 3302;
   3430; 3558; 3664; 3792; 3872; 4160; 4240; 6112; 6160; 6470; 6608; 6784;
   6800; 6992; 7088; 7232; 7248; 42528; 43216; 43264; 43472; 43504; 43600;
   44016; 65296; 66720; 68912; 69734; 69872; 69942; 70096; 70384; 70736;
   70864; 71248; 71360; 71472; 71904; 72016; 72784; 73040; 73120; 92768;
   92864; 93008; 120782; 120792; 120802; 120812; 120822; 123200; 123632;
   125264; 130032].

(** [Py_UNICODE_TODECIMAL] *)
Definition todecimal (c : char) : option N :=
  option_map (fun z => c - z)
             (find (fun z => (z <=? c) && (c <? z + 10)) DECIMAL_ZEROS).

Definition question_mark : char := 63.

(** What [int] makes of a character before it reads the literal: ASCII
    stays, other whitespace becomes a space, another decimal digit becomes
    its ASCII digit and anything else a question mark. *)
Definition to_ascii (c : char) : char :=
  if c <? 127 then c
  else if isspace c then 32
  else match todecimal c with
       | Some d => 48 + d
       | None => question_mark
       end.

(** Digits of an [int] literal in base ten: single underscores are allowed
    between two digits.  [prev] tells whether the previous character was a
    digit. *)
Fixpoint digits_value (prev : bool) (acc : Z) (s : str) : option Z :=
  match s with
  | [] => if prev then Some acc else None
  | c :: t =>
      if is_digit c then digits_value true (10 * acc + Z.of_N (c - 48))%Z t
      else if (c =? underscore) && prev then digits_value false acc t
      else None
  end.

(** The default of [sys.int_max_str_digits]. *)
Definition MAX_STR_DIGITS : nat := 4300.

(** [int(s)] for a string: the characters are brought to ASCII, the
    whitespace around the literal is dropped, then come an optional sign
    and the digits.  A literal of more than [MAX_STR_DIGITS] digits is
    refused. *)
Definition int_of_str (s : str) : result Z :=
  let a := map to_ascii s in
  let body := lstrip_by ascii_space (rstrip_by ascii_space a) in
  let '(negative, digits) :=
    match body with
    | 43 :: t => (false, t)
    | 45 :: t => (true, t)
    | t => (false, t)
    end in
  match digits_value false 0%Z digits with
  | Some z =>
      if (MAX_STR_DIGITS <? length (filter (λ c, is_digit c = true) digits))%nat
      then Raise ValueError
      else Ok (if negative : bool then - z else z)%Z
  | None => Raise ValueError
  end.

(** [int(f)] for a float: truncation towards zero. *)
Definition int_of_float (f : spec_float) : result Z :=
  match f with
  | S754_zero _ => Ok 0%Z
  | S754_infinity _ => Raise OverflowError
  | S754_nan => Raise ValueError
  | S754_finite s m e =>
      let mag := (if 0 <=? e then Z.pos m * 2 ^ e
                  else Z.pos m / 2 ^ (- e))%Z in
      Ok (if s then - mag else mag)%Z
  end.

(** [int(x)] *)
Definition int (v : value) : result Z :=
  match v with
  | VInt z => Ok z
  | VBool b => Ok (if b then 1 else 0)%Z
  | VFloat f => int_of_float f
  | VStr s => int_of_str s
  | _ => Raise TypeError
  end.

End Py.

Import Py.

(** [x ← r; k] runs [r] and passes its value on; an exception propagates. *)
#[global] Instance result_bind : MBind result := fun A B k r => bind r k.
#[global] Instance result_ret : MRet result := @Ok.

(** ** The calendar of [datetime]

    The proleptic Gregorian calendar, with the ordinal arithmetic of the
    [datetime] module: day 1 is 0001-01-01.  Python's [//] and [%] are
    [Z.div] and [Z.modulo] (both round towards minus infinity for a
    positive divisor). *)

Module Calendar.
Local Open Scope Z_scope.

Definition DAYS_IN_MONTH : list Z :=
  [-1; 31; 28; 31; 30; 31; 30; 31; 31; 30; 31; 30; 31].
Definition DAYS_BEFORE_MONTH : list Z :=
  [-1; 0; 31; 59; 90; 120; 151; 181; 212; 243; 273; 304; 334].

Definition table (t : list Z) (i : Z) : Z := nth (Z.to_nat i) t 0.

Definition is_leap (y : Z) : bool :=
  (y mod 4 =? 0) && (negb (y mod 100 =? 0) || (y mod 400 =? 0)).

Definition days_before_year (year : Z) : Z :=
  let y := year - 1 in
  y * 365 + y / 4 - y / 100 + y / 400.

Definition days_in_month (year month : Z) : Z :=
  if (month =? 2) && is_leap year then 29 else table DAYS_IN_MONTH month.

Definition days_before_month (year month : Z) : Z :=
  table DAYS_BEFORE_MONTH month
  + (if (2 <? month) && is_leap year then 1 else 0).

(** Ordinal of a date. *)
Definition ymd2ord (year month day : Z) : Z :=
  days_before_year year + days_before_month year month + day.

(** Date of an ordinal. *)
Definition ord2ymd (n : Z) : Z * Z * Z :=
  let n := n - 1 in
  let n400 := n / 146097 in
  let n := n mod 146097 in
  let year := n400 * 400 + 1 in
  let n100 := n / 36524 in
  let n := n mod 36524 in
  let n4 := n / 1461 in
  let n := n mod 1461 in
  let n1 := n / 365 in
  let n := n mod 365 in
  let year := year + n100 * 100 + n4 * 4 + n1 in
  if (n1 =? 4) || (n100 =? 4) then (year - 1, 12, 31)
  else
    let leapyear := (n1 =? 3) && (negb (n4 =? 24) || (n100 =? 3)) in
    let month := Z.shiftr (n + 50) 5 in
    let preceding :=
      table DAYS_BEFORE_MONTH month
      + (if (2 <? month) && leapyear then 1 else 0) in
    if n <? preceding then
      let month := month - 1 in
      let preceding :=
        preceding
        - (table DAYS_IN_MONTH month
           + (if (month =? 2) && leapyear then 1 else 0)) in
      (year, month, n - preceding + 1)
    else (year, month, n - preceding + 1).

(** A naive [datetime]: wall-clock fields without an offset.  The script
    only makes whole seconds, so microseconds are left out. *)
Record datetime := mk_datetime {
  year : Z; month : Z; day : Z; hour : Z; minute : Z; second : Z
}.

Definition MINYEAR : Z := 1.
Definition MAXYEAR : Z := 9999.

(** Ordinal of 1970-01-01. *)
Definition EPOCH_ORDINAL : Z := 719163.

(** Wall-clock fields of the instant [t] seconds after the epoch, read in
    UTC; [None] when the year leaves [MINYEAR..MAXYEAR]. *)
Definition of_epoch (t : Z) : option datetime :=
  let days := t / 86400 in
  let secs := t mod 86400 in
  let '(y, m, d) := ord2ymd (days + EPOCH_ORDINAL) in
  if (y <? MINYEAR) || (MAXYEAR <? y) then None
  else Some {| year := y; month := m; day := d;
               hour := secs / 3600;
               minute := secs mod 3600 / 60;
               second := secs mod 60 |}.

(** [int(dt.replace(tzinfo=timezone.utc).timestamp())]: the fields read
    as UTC, in seconds since the epoch.  [timestamp()] divides an integer
    number of microseconds by 10**6; the quotient is a whole number below
    2**53, so the float is exact and [int] gives it back. *)
Definition to_epoch (dt : datetime) : Z :=
  (ymd2ord (year dt) (month dt) (day dt) - EPOCH_ORDINAL) * 86400
  + hour dt * 3600 + minute dt * 60 + second dt.

(** The range of the C type [time_t] (64 bits), and the instants whose
    year [gmtime] can hold in the 32-bit field [tm_year]: the first second
    of year 1900 - 2**31 and the last second of year 1900 + 2**31 - 1. *)
Definition TIME_T_MIN : Z := - 2 ^ 63.
Definition TIME_T_MAX : Z := 2 ^ 63 - 1.
Definition GMTIME_MIN : Z := -67768040609740800.
Definition GMTIME_MAX : Z := 67768036191676799.

(** [datetime.fromtimestamp(t, tz=timezone.utc)] for an [int]: the
    conversion to [time_t] raises [OverflowError], a failing [gmtime]
    raises [OSError], and a year outside [MINYEAR..MAXYEAR] raises
    [ValueError]. *)
Definition fromtimestamp_utc (t : Z) : result datetime :=
  if (t <? TIME_T_MIN) || (TIME_T_MAX <? t) then Raise OverflowError
  else if (t <? GMTIME_MIN) || (GMTIME_MAX <? t) then Raise OSError
  else
    match of_epoch t with
    | Some dt => Ok dt
    | None => Raise ValueError
    end.

(** A time zone as [zoneinfo] uses it here: the UTC offset in seconds in
    force at an instant given in seconds since the epoch. *)
Definition zone := Z -> Z.

(** [dt_utc.astimezone(z).replace(tzinfo=None)]: the offset in force is
    added to the UTC fields; the sum may leave the supported years. *)
Definition astimezone_naive (dt_utc : datetime) (z : zone) : result datetime :=
  let t := to_epoch dt_utc in
  match of_epoch (t + z t) with
  | Some local => Ok local
  | None => Raise OverflowError
  end.

Definition digit (n : Z) : char := Z.to_N (48 + n).
Definition pad2 (n : Z) : str := [digit (n / 10 mod 10); digit (n mod 10)].

(** The year as [%Y] writes it: in decimal without leading zeros, so on
    fewer than four digits below year 1000.  A [datetime] has a year of
    at most four digits. *)
Definition year_digits (n : Z) : str :=
  (if n <? 1000 then [] else [digit (n / 1000 mod 10)])
  ++ (if n <? 100 then [] else [digit (n / 100 mod 10)])
  ++ (if n <? 10 then [] else [digit (n / 10 mod 10)])
  ++ [digit (n mod 10)].

Definition colon : char := 58%N.

(** [dt.strftime("%Y:%m:%d %H:%M:%S")] *)
Definition strftime (dt : datetime) : str :=
  year_digits (year dt) ++ [colon] ++ pad2 (month dt) ++ [colon]
  ++ pad2 (day dt) ++ [space] ++ pad2 (hour dt) ++ [colon]
  ++ pad2 (minute dt) ++ [colon] ++ pad2 (second dt).

(** The instant an embedded date string stands for: the six fields of
    the form [YYYY:MM:DD HH:MM:SS] read back positionally, as a reader of
    the tag does.  A string of another form stands for none. *)
Definition digit_value (c : char) : option Z :=
  if is_digit c then Some (Z.of_N (c - 48)) else None.

Definition read2 (a b : char) : option Z :=
  x ← digit_value a; y ← digit_value b; Some (10 * x + y).

Definition read_date_str (s : str) : option datetime :=
  match s with
  | [y1; y2; y3; y4; c1; m1; m2; c2; d1; d2; sp; h1; h2; c3; n1; n2; c4; s1; s2] =>
      if (c1 =? colon)%N && (c2 =? colon)%N && (sp =? space)%N
         && (c3 =? colon)%N && (c4 =? colon)%N then
        yh ← read2 y1 y2; yl ← read2 y3 y4;
        mo ← read2 m1 m2; dd ← read2 d1 d2;
        hh ← read2 h1 h2; mi ← read2 n1 n2; ss ← read2 s1 s2;
        Some {| year := 100 * yh + yl; month := mo; day := dd;
                hour := hh; minute := mi; second := ss |}
      else None
  | _ => None
  end.

(** A test that holds at [fuel] consecutive integers from [i] on. *)
Fixpoint all_from (fuel : nat) (i : Z) (f : Z -> bool) : bool :=
  match fuel with
  | O => true
  | S k => f i && all_from k (i + 1) f
  end.

(** Month and day of day [n] of a year, counted from zero: the last part
    of [ord2ymd]. *)
Definition month_day (leapyear : bool) (n : Z) : Z * Z :=
  let month := Z.shiftr (n + 50) 5 in
  let preceding :=
    table DAYS_BEFORE_MONTH month
    + (if (2 <? month) && leapyear then 1 else 0) in
  if n <? preceding then
    let month := month - 1 in
    let preceding :=
      preceding
      - (table DAYS_IN_MONTH month
         + (if (month =? 2) && leapyear then 1 else 0)) in
    (month, n - preceding + 1)
  else (month, n - preceding + 1).

Definition month_day_ok (leapyear : bool) (n : Z) : bool :=
  let '(m, d) := month_day leapyear n in
  (1 <=? m) && (m <=? 12) && (1 <=? d)
  && (d <=? (if (m =? 2) && leapyear then 29 else table DAYS_IN_MONTH m))
  && (table DAYS_BEFORE_MONTH m + (if (2 <? m) && leapyear then 1 else 0) + d
      =? n + 1).

(** Ranges of the fields that [of_epoch] produces. *)
Definition fields_ok (dt : datetime) : Prop :=
  MINYEAR <= year dt <= MAXYEAR ∧ 1 <= month dt <= 12
  ∧ 1 <= day dt <= days_in_month (year dt) (month dt)
  ∧ 0 <= hour dt < 24 ∧ 0 <= minute dt < 60 ∧ 0 <= second dt < 60.

End Calendar.

Import Calendar.

Local Open Scope Z_scope.

(** ** The extractors *)

Module Extract.
Section WithZones.

(** [ZoneInfo(tz_name)]: the zone of the installed time zone data, [None]
    when the lookup raises. *)
Variable zoneinfo : str -> option zone.

Definition lookup_zone (tz_name : str) : result zone :=
  match zoneinfo tz_name with
  | Some z => Ok z
  | None => Raise KeyError
  end.

(** The first line of [get_taken_time]: the two chained [get] calls. *)
Definition timestamp_field (meta : value) : result value :=
  taken ← dict_get meta (lit "photoTakenTime") (VDict ∅);
  dict_get taken (lit "timestamp") VNone.

(** The result is [None] or a naive [datetime]. *)
Definition get_taken_time (meta : value) (tz_name : str) (use_utc : bool)
  : result (option datetime) :=
  ts ← timestamp_field meta;
  if negb (truthy ts) then Ok None
  else
    t ← int ts;
    dt_utc ← fromtimestamp_utc t;
    if use_utc then Ok (Some dt_utc)
    else
      match z ← lookup_zone tz_name; astimezone_naive dt_utc z with
      | Ok local => Ok (Some local)
      | Raise _ => Ok (Some dt_utc)
      end.

(** The pair [(lat, lon)]; [VNone] stands for Python's [None]. *)
Definition get_gps (meta : value) : result (value * value) :=
  geo ← dict_get meta (lit "geoData") (VDict ∅);
  lat ← dict_get geo (lit "latitude") (VInt 0);
  lon ← dict_get geo (lit "longitude") (VInt 0);
  if eq_zero lat && eq_zero lon then Ok (VNone, VNone)
  else Ok (lat, lon).

End WithZones.

(** A record without the capture time: the outer field is missing, or it
    is an object without the inner field. *)
Definition lacks_timestamp (meta : value) : Prop :=
  ∃ m, meta = VDict m
       ∧ (m !! lit "photoTakenTime" = None
          ∨ ∃ taken, m !! lit "photoTakenTime" = Some (VDict taken)
                     ∧ taken !! lit "timestamp" = None).

End Extract.

Import Extract.

(** ** Paths, the file tree and [unique_path] *)

Module Fs.

(** A path is the list of its components; a component holds no
    separator. *)
Abbreviation path := (list (list N)) (only parsing).

Definition name (p : path) : str := List.last p [].
Definition parent (p : path) : path := List.removelast p.

(** [p / s] for one component [s]; joining the empty string gives [p]. *)
Definition joinpath (p : path) (s : str) : path :=
  if is_empty s then p else p ++ [s].

(** [s.rfind(c)] *)
Fixpoint rfind (c : char) (s : str) : option nat :=
  match s with
  | [] => None
  | x :: t =>
      match rfind c t with
      | Some i => Some (S i)
      | None => if (x =? c)%N then Some 0%nat else None
      end
  end.

(** Where [pathlib] splits a name: at its last period, unless that is the
    first or the last character. *)
Definition split_point (nm : str) : option nat :=
  match rfind period nm with
  | Some i =>
      if (0 <? i)%nat && (i <? length nm - 1)%nat then Some i else None
  | None => None
  end.

Definition suffix_of (nm : str) : str :=
  match split_point nm with Some i => drop i nm | None => [] end.
Definition stem_of (nm : str) : str :=
  match split_point nm with Some i => take i nm | None => nm end.

Definition suffix (p : path) : str := suffix_of (name p).
Definition stem (p : path) : str := stem_of (name p).

(** [p.with_name(nm)].  The check of the new name is left out: the names
    built here are a component with text added, which [pathlib] accepts. *)
Definition with_name (p : path) (nm : str) : result path :=
  if is_empty (name p) then Raise ValueError else Ok (parent p ++ [nm]).

Definition with_stem (p : path) (st : str) : result path :=
  with_name p (st ++ suffix p).

Definition slash : char := 47%N.

Definition with_suffix (p : path) (sfx : str) : result path :=
  if bool_decide (slash ∈ sfx) then Raise ValueError
  else if negb (is_empty sfx)
          && negb (match sfx with c :: _ => (c =? period)%N | [] => false end)
          || bool_decide (sfx = [period]) then Raise ValueError
  else if is_empty (name p) then Raise ValueError
  else
    let old := suffix p in
    let nm := if is_empty old then name p ++ sfx
              else take (length (name p) - length old) (name p) ++ sfx in
    Ok (parent p ++ [nm]).

(** [str.lower()] on the ASCII letters.  Outside ASCII only U+212A lowers
    to an ASCII letter (k), which no recognised extension contains, so
    membership of the lowered suffix in the extension sets is the same. *)
Definition lower_char (c : char) : char :=
  if ((65 <=? c) && (c <=? 90))%N then (c + 32)%N else c.
Definition lower (s : str) : str := map lower_char s.

Definition PHOTO_EXTS : gset str :=
  {[ lit ".jpg"; lit ".jpeg"; lit ".heic"; lit ".png" ]}.
Definition VIDEO_EXTS : gset str :=
  {[ lit ".mp4"; lit ".mov"; lit ".m4v" ]}.
Definition ALL_EXTS : gset str := PHOTO_EXTS ∪ VIDEO_EXTS.

(** A regular file: its bytes and its access and modification times. *)
Record file := mk_file {
  data : list Byte.byte; atime : Z; mtime : Z
}.

Inductive node :=
| Dir
| File (f : file).

(** [p.exists()]: whether the tree has an entry at [p].  A lookup that
    the operating system itself refuses (a name longer than the file
    system allows, a folder that may not be searched) makes [exists]
    raise [OSError]; such failures do not depend on the tree and are not
    part of it. *)
Definition exists_ (fs : gmap path node) (p : path) : bool :=
  bool_decide (is_Some (fs !! p)).

(** [str(i)] of a counter. *)
Definition decimal (i : nat) : str :=
  lit (NilEmpty.string_of_uint (Nat.to_uint i)).

(** [path.with_stem(f"{path.stem} ({i})")] *)
Definition numbered (p : path) (i : nat) : result path :=
  with_stem p (stem p ++ lit " (" ++ decimal i ++ lit ")").

(** The path that [numbered] builds when [p] has a name. *)
Definition candidate (p : path) (i : nat) : path :=
  parent p ++ [stem p ++ lit " (" ++ decimal i ++ lit ")" ++ suffix p].

(** What a computation that may loop gives: a value, an exception that
    nothing caught, or no answer within the allotted steps. *)
Inductive run (A : Type) :=
| Return (a : A)
| Uncaught (e : exn)
| OutOfFuel.
Arguments Return {A} a.
Arguments Uncaught {A} e.
Arguments OutOfFuel {A}.

(** The [while True] loop, entered with counter [i]; [fuel] bounds the
    number of iterations. *)
Fixpoint unique_path_loop (fuel : nat) (fs : gmap path node) (p : path)
  (i : nat) : run path :=
  match fuel with
  | O => OutOfFuel
  | S fuel =>
      match numbered p i with
      | Raise e => Uncaught e
      | Ok new_path =>
          if exists_ fs new_path then unique_path_loop fuel fs p (S i)
          else Return new_path
      end
  end.

Definition unique_path (fuel : nat) (fs : gmap path node) (p : path)
  : run path :=
  if negb (exists_ fs p) then Return p
  else unique_path_loop fuel fs p 1.

(** The path that the [k]-th of several equally named files gets in a
    folder that held none of them: the plain one first, then the numbered
    ones. *)
Definition nth_place (p : path) (k : nat) : path :=
  match k with
  | O => p
  | S _ => candidate p k
  end.

(** [n] files named like [p] placed one after the other, each copied to
    the path that [unique_path] gives for it: the paths used, first to
    last, and the tree at the end. *)
Fixpoint place_times (fuel : nat) (fs : gmap path node) (p : path) (f : file)
  (n : nat) : run (list path * gmap path node) :=
  match n with
  | O => Return ([], fs)
  | S n' =>
      match place_times fuel fs p f n' with
      | Return (used, fs') =>
          match unique_path fuel fs' p with
          | Return r => Return (used ++ [r], <[r := File f]> fs')
          | Uncaught e => Uncaught e
          | OutOfFuel => OutOfFuel
          end
      | Uncaught e => Uncaught e
      | OutOfFuel => OutOfFuel
      end
  end.

(** [p.mkdir(parents=True, exist_ok=True)]: missing ancestors are made;
    a regular file on the way makes the call fail before anything is
    created. *)
Fixpoint mkdir_from (fs : gmap path node) (done : path) (rest : list str)
  : result (gmap path node) :=
  match rest with
  | [] => Ok fs
  | c :: rest' =>
      let p := done ++ [c] in
      match fs !! p with
      | Some (File _) =>
          Raise (match rest' with [] => FileExistsError
                                | _ => NotADirectoryError end)
      | Some Dir => mkdir_from fs p rest'
      | None => mkdir_from (<[p := Dir]> fs) p rest'
      end
  end.

(** What the conversion of a path for the operating system refuses, the
    file system encoding being UTF-8 with the handler [surrogateescape]:
    a surrogate other than U+DC80..U+DCFF cannot be encoded
    ([UnicodeEncodeError]), and a NUL cannot be passed on
    ([ValueError]). *)
Definition unencodable (c : char) : bool :=
  ((55296 <=? c) && (c <? 56448))%N || ((56575 <? c) && (c <=? 57343))%N.

Definition fsencode_error (p : path) : option exn :=
  if existsb (existsb unencodable) p then Some UnicodeEncodeError
  else if existsb (existsb (N.eqb 0)) p then Some ValueError
  else None.

(** The first [os.mkdir] converts the whole path and raises before
    anything is made; limits of the operating system on the length of a
    name are not part of the tree. *)
Definition mkdir_p (fs : gmap path node) (p : path) : result (gmap path node) :=
  match fsencode_error p with
  | Some e => Raise e
  | None => mkdir_from fs [] p
  end.

(** [shutil.copy2(src, dst)]: bytes and times. *)
Definition copy2 (fs : gmap path node) (src dst : path)
  : result (gmap path node) :=
  match fs !! src with
  | Some (File f) => Ok (<[dst := File f]> fs)
  | Some Dir => Raise IsADirectoryError
  | None => Raise FileNotFoundError
  end.

(** [os.utime(p, (epoch, epoch))] *)
Definition utime (fs : gmap path node) (p : path) (epoch : Z)
  : result (gmap path node) :=
  match fs !! p with
  | Some (File f) =>
      Ok (<[p := File {| data := data f; atime := epoch; mtime := epoch |}]> fs)
  | Some Dir => Ok fs
  | None => Raise FileNotFoundError
  end.

End Fs.

Import Fs.

(** ** [write_metadata] and the body of [main] *)

Module Pipeline.

(** One word of the [exiftool] command line.  [SetTag t v] is the word
    made of a dash, [t], an equals sign and [v]; [SetTagObj] is the same
    with an object formatted by the f-string; [Target] is [str(file_path)]. *)
Inductive arg :=
| Word (s : str)
| SetTag (tag : str) (v : str)
| SetTagObj (tag : str) (v : value)
| Target (p : path).

(** A line printed for a file: the check mark or the cross with the
    exception.  The console takes every line: a standard output that
    cannot encode a name is not modelled. *)
Inductive line :=
| Done (nm : str)
| Failed (nm : str) (e : exn).

Record world := mk_world {
  tree : gmap path node;
  console : list line
}.

(** How the [try] block of one file ends. *)
Inductive outcome :=
| Skipped
| Processed
| Error (e : exn).

(** The four words that carry a location. *)
Definition gps_tags : list (list N) :=
  [lit "GPSLatitude"; lit "GPSLongitude";
   lit "GPSLatitudeRef"; lit "GPSLongitudeRef"].

Definition is_gps_arg (a : arg) : bool :=
  match a with
  | SetTag tag _ | SetTagObj tag _ => bool_decide (tag ∈ gps_tags)
  | _ => false
  end.

Definition is_none (v : value) : bool :=
  match v with VNone => true | _ => false end.

Definition date_args (is_video : bool) (date_str : str) : list arg :=
  if is_video then
    [SetTag (lit "CreateDate") date_str;
     SetTag (lit "MediaCreateDate") date_str;
     SetTag (lit "TrackCreateDate") date_str;
     SetTag (lit "ModifyDate") date_str]
  else
    [SetTag (lit "DateTimeOriginal") date_str;
     SetTag (lit "CreateDate") date_str;
     SetTag (lit "ModifyDate") date_str].

Definition gps_args (lat lon : value) : result (list arg) :=
  if negb (is_none lat) && negb (is_none lon) then
    north ← ge_zero lat;
    east ← ge_zero lon;
    Ok [SetTagObj (lit "GPSLatitude") lat;
        SetTagObj (lit "GPSLongitude") lon;
        SetTag (lit "GPSLatitudeRef") (if north : bool then lit "N" else lit "S");
        SetTag (lit "GPSLongitudeRef") (if east : bool then lit "E" else lit "W")]
  else Ok [].

(** The list [cmd] as it stands before the [if not dry]. *)
Definition build_cmd (file_path : path) (dt : datetime) (lat lon : value)
  (is_video : bool) : result (list arg) :=
  let date_str := strftime dt in
  gps ← gps_args lat lon;
  Ok ([Word (lit "exiftool"); Word (lit "-overwrite_original");
       Word (lit "-q"); Word (lit "-q")]
      ++ date_args is_video date_str ++ gps ++ [Target file_path]).

(** The values of the words that assign a date: every assignment whose
    tag is not one of the four location tags. *)
Definition date_values (cmd : list arg) : list (list N) :=
  omap (fun a => match a with
                 | SetTag tag v =>
                     if bool_decide (tag ∈ gps_tags) then None else Some v
                 | _ => None
                 end) cmd.

(** The epoch handed to [os.utime]. *)
Definition utime_epoch (dt : datetime) : Z := to_epoch dt.

(** [album[0]] for a truthy [album]. *)
Definition first_item (album : value) : result value :=
  match album with
  | VList (x :: _) => Ok x
  | VList [] => Raise IndexError
  | VStr (c :: _) => Ok (VStr [c])
  | VStr [] => Raise IndexError
  | VDict _ => Raise KeyError
  | _ => Raise TypeError
  end.

(** [clean_name] on an arbitrary object: a falsy one gives the fallback,
    a string is cleaned, [re.sub] refuses anything else. *)
Definition clean_name_obj (v : value) : result str :=
  if negb (truthy v) then Ok unknown_album
  else
    match v with
    | VStr s => Ok (clean_name s)
    | _ => Raise TypeError
    end.

Definition choose_folder (meta : value) (p : path) : result str :=
  album ← dict_get meta (lit "albumTitles") (VList []);
  if truthy album then x ← first_item album; clean_name_obj x
  else Ok (clean_name (name (parent p))).

Section WithCollaborators.

Variable zoneinfo : str -> option zone.

(** [json.load] on the bytes of the opened file. *)
Variable json_load : list Byte.byte -> result value.

(** The [exiftool] process: what a run with the given words makes of its
    target file. *)
Variable exiftool : list arg -> file -> file.

Definition run_exiftool (cmd : list arg) (fs : gmap path node)
  (file_path : path) : gmap path node :=
  match fs !! file_path with
  | Some (File f) => <[file_path := File (exiftool cmd f)]> fs
  | _ => fs
  end.

Definition write_metadata (fs : gmap path node) (file_path : path)
  (dt : datetime) (lat lon : value) (is_video dry : bool)
  : gmap path node * result unit :=
  match build_cmd file_path dt lat lon is_video with
  | Raise e => (fs, Raise e)
  | Ok cmd =>
      if dry then (fs, Ok tt)
      else
        let fs1 := run_exiftool cmd fs file_path in
        match utime fs1 file_path (utime_epoch dt) with
        | Ok fs2 => (fs2, Ok tt)
        | Raise e => (fs1, Raise e)
        end
  end.

(** [open(json_path)] followed by [json.load]. *)
Definition load_meta (fs : gmap path node) (json_path : path) : result value :=
  match fs !! json_path with
  | Some (File f) => json_load (data f)
  | Some Dir => Raise IsADirectoryError
  | None => Raise FileNotFoundError
  end.

Definition europe_london : str := lit "Europe/London".

(** The [try] block for the file [p] with sidecar [json_path]. *)
Definition try_body (fuel : nat) (fs : gmap path node) (dest p json_path : path)
  : run (gmap path node * outcome) :=
  match load_meta fs json_path with
  | Raise e => Return (fs, Error e)
  | Ok meta =>
  match get_taken_time zoneinfo meta europe_london false with
  | Raise e => Return (fs, Error e)
  | Ok None => Return (fs, Skipped)
  | Ok (Some dt) =>
  match gps ← get_gps meta; folder ← choose_folder meta p; Ok (gps, folder) with
  | Raise e => Return (fs, Error e)
  | Ok ((lat, lon), folder) =>
  let dest_folder := joinpath dest folder in
  match mkdir_p fs dest_folder with
  | Raise e => Return (fs, Error e)
  | Ok fs1 =>
  match unique_path fuel fs1 (joinpath dest_folder (name p)) with
  | OutOfFuel => OutOfFuel
  | Uncaught e => Return (fs1, Error e)
  | Return new_path =>
  match copy2 fs1 p new_path with
  | Raise e => Return (fs1, Error e)
  | Ok fs2 =>
  match write_metadata fs2 new_path dt lat lon
          (bool_decide (lower (suffix p) ∈ VIDEO_EXTS)) false with
  | (fs3, Raise e) => Return (fs3, Error e)
  | (fs3, Ok _) => Return (fs3, Processed)
  end end end end end end end.

(** The body of the inner [for] loop for the file [p]. *)
Definition process_file (fuel : nat) (dest : path) (w : world) (p : path)
  : run world :=
  if negb (bool_decide (lower (suffix p) ∈ ALL_EXTS)) then Return w
  else
    match with_suffix p (suffix p ++ lit ".json") with
    | Raise e => Uncaught e
    | Ok json_path =>
        if negb (exists_ (tree w) json_path) then Return w
        else
          match try_body fuel (tree w) dest p json_path with
          | Return (fs, Skipped) =>
              Return {| tree := fs; console := console w |}
          | Return (fs, Processed) =>
              Return {| tree := fs; console := console w ++ [Done (name p)] |}
          | Return (fs, Error e) =>
              Return {| tree := fs;
                        console := console w ++ [Failed (name p) e] |}
          | Uncaught e => Uncaught e
          | OutOfFuel => OutOfFuel
          end
    end.

(** The two nested [for] loops over the files that [os.walk] yields. *)
Fixpoint process_all (fuel : nat) (dest : path) (w : world) (files : list path)
  : run world :=
  match files with
  | [] => Return w
  | p :: rest =>
      match process_file fuel dest w p with
      | Return w' => process_all fuel dest w' rest
      | Uncaught e => Uncaught e
      | OutOfFuel => OutOfFuel
      end
  end.

End WithCollaborators.
End Pipeline.

Import Pipeline.

(** ** Time zone data used in the examples

    An excerpt of the IANA data as [zoneinfo] reads it: an initial offset
    and the transitions, each an instant with the offset in force from it
    on.  The excerpt covers the year 2021. *)

Module TzData.

Definition offset_at (initial : Z) (transitions : list (Z * Z)) : zone :=
  fun t =>
    fold_left (fun off tr => if fst tr <=? t then snd tr else off)
              transitions initial.

(** Europe/London in 2021: summer time from 28 March 01:00 UTC to
    31 October 01:00 UTC. *)
Definition london_2021 : zone :=
  offset_at 0 [(1616893200, 3600); (1635642000, 0)].

Definition utc_zone : zone := fun _ => 0.

Definition zoneinfo_2021 (tz_name : str) : option zone :=
  if bool_decide (tz_name = lit "Europe/London") then Some london_2021
  else if bool_decide (tz_name = lit "UTC") then Some utc_zone
  else None.

End TzData.

Import TzData.

(** ** Concrete records and trees used in the examples *)

Module Scenario.

(** A sidecar whose only content is the capture time [ts]. *)
Definition meta_of (ts : value) : value :=
  VDict {[ lit "photoTakenTime" := VDict {[ lit "timestamp" := ts ]} ]}.

(** Noon UTC on 1 July 2021, as the export writes it. *)
Definition summer_ts : Z := 1625140800.
Definition summer_meta : value := meta_of (VStr (lit "1625140800")).

Definition photo : file := {| data := []; atime := 5; mtime := 5 |}.
Definition sidecar_file : file := {| data := []; atime := 7; mtime := 7 |}.

Definition img : list (list N) := [lit "takeout"; lit "Trip"; lit "IMG_0001.jpg"].
Definition img_json : list (list N) :=
  [lit "takeout"; lit "Trip"; lit "IMG_0001.jpg.json"].
Definition out : list (list N) := [lit "out"].
Definition placed : list (list N) := [lit "out"; lit "Trip"; lit "IMG_0001.jpg"].

(** A tree with the photo alone, and one with its sidecar as well. *)
Definition bare_tree : gmap (list (list N)) node := {[ img := File photo ]}.
Definition full_tree : gmap (list (list N)) node :=
  {[ img := File photo; img_json := File sidecar_file ]}.

Definition bare_world : world := {| tree := bare_tree; console := [] |}.
Definition full_world : world := {| tree := full_tree; console := [] |}.

(** Collaborators that do nothing of their own: every sidecar parses to
    [meta], and [exiftool] leaves the file as it is. *)
Definition load_const (meta : value) : list Byte.byte -> result value :=
  fun _ => Ok meta.
Definition exiftool_id : list arg -> file -> file := fun _ f => f.

End Scenario.

Import Scenario.

(** ** Shapes of names *)

Module Shape.

(** A name as [clean_name] leaves it: no illegal character, whitespace in
    normal form, no whitespace in front, neither a period nor a space at
    the end. *)
Definition tidy (r : str) : Prop :=
  legal r ∧ spaced r = true
  ∧ match r with c :: _ => isspace c = false | [] => True end
  ∧ match rev r with c :: _ => dot_or_space c = false | [] => True end.

Definition backslash : char := 92%N.

End Shape.

Import Shape.

(** ** More concrete trees for the examples *)

Module Placed.

(** A sidecar whose timestamp is no number. *)
Definition broken_meta : value := meta_of (VStr (lit "abc")).

(** An album title that tries to leave the destination. *)
Definition escaping_meta : value :=
  VDict {[ lit "albumTitles" := VList [VStr (lit "../../etc")] ]}.

End Placed.

Import Placed.

(** * Theorems *)

(** ** Facts about stripping *)

Module StripFacts.

Lemma drop_while_split {A} (f : A -> bool) (l : list A) :
  ∃ a, l = a ++ drop_while f l ∧ Forall (λ x, f x = true) a.
Proof.
  induction l as [|x t IH]; simpl.
  - exists []. split; [reflexivity | constructor].
  - destruct (f x) eqn:E.
    + destruct IH as (a & Ha & Fa). exists (x :: a). split.
      * simpl. congruence.
      * constructor; assumption.
    + exists []. split; [reflexivity | constructor].
Qed.

Lemma drop_while_head {A} (f : A -> bool) (l : list A) x t :
  drop_while f l = x :: t → f x = false.
Proof.
  induction l as [|y u IH]; simpl; [discriminate|].
  destruct (f y) eqn:E; [exact IH|].
  intros [= -> _]. exact E.
Qed.

Lemma drop_while_fixed {A} (f : A -> bool) x (t : list A) :
  f x = false → drop_while f (x :: t) = x :: t.
Proof. intros E. simpl. rewrite E. reflexivity. Qed.

Lemma rstrip_by_snoc f (l : str) c :
  rstrip_by f (l ++ [c]) = if f c then rstrip_by f l else l ++ [c].
Proof.
  unfold rstrip_by. rewrite rev_app_distr. simpl.
  destruct (f c); [reflexivity|].
  simpl. rewrite rev_involutive. reflexivity.
Qed.

(** What [rstrip] removes is a block at the end. *)
Lemma rstrip_by_split f (l : str) :
  ∃ b, l = rstrip_by f l ++ b ∧ Forall (λ x, f x = true) b.
Proof.
  unfold rstrip_by.
  destruct (drop_while_split f (rev l)) as (a & Ha & Fa).
  exists (rev a). split.
  - rewrite <- rev_app_distr, <- Ha, rev_involutive. reflexivity.
  - apply List.Forall_rev. exact Fa.
Qed.

(** What [rstrip] leaves is empty or ends outside the set. *)
Lemma rstrip_by_last f (l : str) :
  rstrip_by f l = [] ∨ ∃ l' c, rstrip_by f l = l' ++ [c] ∧ f c = false.
Proof.
  unfold rstrip_by.
  destruct (drop_while f (rev l)) as [|x t] eqn:E; [left; reflexivity|].
  right. exists (rev t), x. split; [reflexivity|].
  eapply drop_while_head; eassumption.
Qed.

Lemma rstrip_by_fixed f (l : str) c :
  f c = false → rstrip_by f (l ++ [c]) = l ++ [c].
Proof. intros E. rewrite rstrip_by_snoc, E. reflexivity. Qed.

End StripFacts.

(** ** Facts about [clean_name] *)

Module SanitizeFacts.
Import StripFacts.

Lemma isspace_space : isspace space = true.
Proof. reflexivity. Qed.

Lemma spaced_sub_spaces s : spaced (sub_spaces s) = true.
Proof.
  induction s as [|c t IH]; [reflexivity|].
  cbn [sub_spaces]. destruct (isspace c) eqn:Ec.
  - destruct t as [|d t']; [reflexivity|].
    destruct (isspace d) eqn:Ed; [exact IH|].
    cbn [sub_spaces] in *. rewrite Ed in *.
    cbn [spaced]. rewrite isspace_space, N.eqb_refl, Ed.
    cbn [spaced] in IH. rewrite Ed in IH. exact IH.
  - cbn [spaced]. rewrite Ec, IH. reflexivity.
Qed.

Lemma sub_spaces_fixed s : spaced s = true → sub_spaces s = s.
Proof.
  induction s as [|c t IH]; [reflexivity|].
  cbn [spaced sub_spaces]. destruct (isspace c) eqn:Ec.
  - intros H. apply andb_prop in H as [H1 H2].
    apply andb_prop in H1 as [H1 H3]. apply N.eqb_eq in H1.
    destruct t as [|d t']; [rewrite H1; reflexivity|].
    apply negb_true_iff in H3. rewrite H3.
    rewrite (IH H2), H1. reflexivity.
  - intros H. simpl in H. rewrite (IH H). reflexivity.
Qed.

Lemma spaced_app_r a b : spaced (a ++ b) = true → spaced b = true.
Proof.
  induction a as [|c a IH]; [trivial|].
  simpl app. cbn [spaced]. intros H.
  apply andb_prop in H as [_ H]. auto.
Qed.

Lemma spaced_app_l a b : spaced (a ++ b) = true → spaced a = true.
Proof.
  induction a as [|c a IH]; [trivial|].
  simpl app. cbn [spaced]. intros H.
  apply andb_prop in H as [H1 H2]. rewrite (IH H2), andb_true_r.
  destruct (isspace c); [|reflexivity].
  apply andb_prop in H1 as [H1 H3]. rewrite H1. simpl.
  destruct a as [|d a']; [reflexivity|]. exact H3.
Qed.

Lemma spaced_only_spaces s c :
  spaced s = true → In c s → isspace c = true → c = space.
Proof.
  induction s as [|x t IH]; [intros _ []|].
  cbn [spaced]. intros H [->|Hin] Hc.
  - rewrite Hc in H. apply andb_prop in H as [H _].
    apply andb_prop in H as [H _]. apply N.eqb_eq in H. exact H.
  - apply andb_prop in H as [_ H]. auto.
Qed.

Lemma legal_sub_illegal s : legal (sub_illegal s).
Proof.
  unfold legal, sub_illegal. apply Forall_forall. intros c Hc.
  apply list_elem_of_In, in_map_iff in Hc as (x & <- & _).
  destruct (illegal x) eqn:E; [reflexivity | exact E].
Qed.

Lemma sub_illegal_fixed s : legal s → sub_illegal s = s.
Proof.
  unfold legal, sub_illegal. induction 1 as [|c t Hc _ IH]; [reflexivity|].
  simpl. rewrite Hc, IH. reflexivity.
Qed.

Lemma legal_sub_spaces s : legal s → legal (sub_spaces s).
Proof.
  unfold legal. induction 1 as [|c t Hc Ht IH]; [constructor|].
  cbn [sub_spaces]. destruct (isspace c).
  - destruct t as [|d t']; [repeat constructor|].
    destruct (isspace d); [exact IH|].
    constructor; [reflexivity | exact IH].
  - constructor; assumption.
Qed.

Lemma legal_app a b : legal (a ++ b) ↔ legal a ∧ legal b.
Proof. apply Forall_app. Qed.

(** The three properties that the last three steps establish. *)
Lemma strip_spaced_legal s :
  spaced s = true → legal s →
  spaced (strip s) = true ∧ legal (strip s)
  ∧ (strip s = [] ∨ ∃ c t, strip s = c :: t ∧ isspace c = false).
Proof.
  intros Hs Hl. unfold strip, lstrip_by.
  destruct (rstrip_by_split isspace s) as (b & Hb & _).
  set (r := rstrip_by isspace s) in *.
  destruct (drop_while_split isspace r) as (a & Ha & _).
  set (d := drop_while isspace r) in *.
  rewrite Hb in Hs, Hl. apply spaced_app_l in Hs. apply legal_app in Hl as [Hl _].
  rewrite Ha in Hs, Hl. apply spaced_app_r in Hs. apply legal_app in Hl as [_ Hl].
  repeat split; try assumption.
  destruct d as [|c t] eqn:E; [left; reflexivity|].
  right. exists c, t. split; [reflexivity|].
  eapply drop_while_head. exact E.
Qed.

(** A non-empty result of the cleaning steps is left alone by each of
    them. *)
Lemma clean_steps_stable x r :
  spaced x = true → legal x →
  (x = [] ∨ ∃ c t, x = c :: t ∧ isspace c = false) →
  r = rstrip_by dot_or_space x → r ≠ [] →
  sub_illegal r = r ∧ sub_spaces r = r ∧ strip r = r
  ∧ rstrip_by dot_or_space r = r.
Proof.
  intros Hs Hl Hhead Hr Hne.
  destruct (rstrip_by_split dot_or_space x) as (b & Hb & _).
  rewrite <- Hr in Hb.
  assert (Hsr : spaced r = true) by (rewrite Hb in Hs; eapply spaced_app_l; eauto).
  assert (Hlr : legal r) by (rewrite Hb in Hl; apply legal_app in Hl; tauto).
  destruct (rstrip_by_last dot_or_space x) as [E|(l' & c & E & Hc)];
    rewrite <- Hr in E; [contradiction|].
  assert (Hcs : isspace c = false).
  { destruct (isspace c) eqn:Ec; [|reflexivity].
    assert (c = space).
    { apply (spaced_only_spaces r); auto. rewrite E. apply in_app_iff. right. left. reflexivity. }
    subst c. discriminate Hc. }
  split; [apply sub_illegal_fixed; exact Hlr|].
  split; [apply sub_spaces_fixed; exact Hsr|].
  split.
  - unfold strip, lstrip_by. rewrite E, rstrip_by_fixed by exact Hcs.
    rewrite <- E.
    destruct Hhead as [->|(h & t & -> & Hh)].
    + destruct r; [contradiction|]. destruct b; discriminate.
    + destruct r as [|h' t']; [contradiction|].
      injection Hb as <- _. apply drop_while_fixed. exact Hh.
  - rewrite E. apply rstrip_by_fixed. exact Hc.
Qed.

(** Sanitizing a name whose sanitized form is not empty changes nothing. *)
Lemma clean_name_stable s :
  clean_name s ≠ [] → clean_name (clean_name s) = clean_name s.
Proof.
  intros Hne. unfold clean_name at 2 3. unfold clean_name in Hne.
  destruct (is_empty s) eqn:Es; [reflexivity|].
  set (x := strip (sub_spaces (sub_illegal s))) in *.
  set (r := rstrip_by dot_or_space x) in *.
  destruct (strip_spaced_legal (sub_spaces (sub_illegal s)))
    as (Hs & Hl & Hh).
  { apply spaced_sub_spaces. }
  { apply legal_sub_spaces, legal_sub_illegal. }
  destruct (clean_steps_stable x r Hs Hl Hh eq_refl Hne) as (H1 & H2 & H3 & H4).
  unfold clean_name. destruct r as [|c t] eqn:Er; [contradiction|].
  cbn [is_empty]. rewrite H1, H2, H3, H4. reflexivity.
Qed.

Lemma drop_while_all {A} (f : A -> bool) (l : list A) :
  Forall (λ x, f x = true) l → drop_while f l = [].
Proof.
  induction 1 as [|x t Hx _ IH]; [reflexivity|].
  simpl. rewrite Hx. exact IH.
Qed.

Lemma rstrip_by_all f (l : list N) :
  Forall (λ x, f x = true) l → rstrip_by f l = [].
Proof.
  intros H. unfold rstrip_by.
  rewrite drop_while_all by (apply List.Forall_rev; exact H).
  reflexivity.
Qed.

(** The string that [strip] leaves sits between two blocks of
    whitespace. *)
Lemma strip_split s :
  ∃ a b, s = a ++ strip s ++ b
         ∧ Forall (λ c, isspace c = true) a
         ∧ Forall (λ c, isspace c = true) b.
Proof.
  unfold strip, lstrip_by.
  destruct (rstrip_by_split isspace s) as (b & Hb & Fb).
  destruct (drop_while_split isspace (rstrip_by isspace s)) as (a & Ha & Fa).
  exists a, b. split; [|split; assumption].
  rewrite app_assoc, <- Ha. exact Hb.
Qed.

Lemma illegal_not_blank c : illegal c = true → blank c = false.
Proof.
  unfold illegal. rewrite !orb_true_iff, !N.eqb_eq.
  intros H. repeat destruct H as [H|H]; subst c; reflexivity.
Qed.

Lemma blank_sub_illegal s :
  Forall (λ c, blank c = true) (sub_illegal s) ↔ Forall (λ c, blank c = true) s.
Proof.
  unfold sub_illegal. induction s as [|c t IH]; [reflexivity|].
  cbn [map]. rewrite !Forall_cons, IH.
  destruct (illegal c) eqn:E; [|reflexivity].
  apply illegal_not_blank in E. rewrite E.
  change (blank hyphen) with false. intuition discriminate.
Qed.

Lemma blank_sub_spaces s :
  Forall (λ c, blank c = true) (sub_spaces s) ↔ Forall (λ c, blank c = true) s.
Proof.
  induction s as [|c t IH]; [reflexivity|].
  cbn [sub_spaces]. rewrite Forall_cons.
  destruct (isspace c) eqn:Ec.
  - assert (Hc : blank c = true) by (unfold blank; rewrite Ec; reflexivity).
    destruct t as [|d t'].
    + rewrite Forall_cons. change (blank space) with true. tauto.
    + destruct (isspace d) eqn:Ed.
      * rewrite IH. tauto.
      * rewrite Forall_cons, IH. change (blank space) with true. tauto.
  - rewrite Forall_cons, IH. reflexivity.
Qed.

(** In a string with whitespace in normal form a blank character is a
    period or a space. *)
Lemma blank_spaced s :
  spaced s = true → Forall (λ c, blank c = true) s →
  Forall (λ c, dot_or_space c = true) s.
Proof.
  intros Hs Hb. apply Forall_forall. intros c Hin.
  rewrite Forall_forall in Hb. specialize (Hb c Hin).
  unfold blank in Hb. unfold dot_or_space.
  destruct (isspace c) eqn:Ec.
  - rewrite (spaced_only_spaces s c Hs) by
      (try apply list_elem_of_In; assumption).
    reflexivity.
  - cbn [orb] in Hb. rewrite Hb. reflexivity.
Qed.

Lemma dot_or_space_blank c : dot_or_space c = true → blank c = true.
Proof.
  unfold dot_or_space. rewrite orb_true_iff, !N.eqb_eq.
  intros [->| ->]; reflexivity.
Qed.

(** The sanitized name is empty exactly for a non-empty name made of
    whitespace and periods only. *)
Lemma clean_name_empty_iff s :
  clean_name s = [] ↔ s ≠ [] ∧ Forall (λ c, blank c = true) s.
Proof.
  unfold clean_name. destruct s as [|c0 s0]; cbn [is_empty].
  { split; [discriminate | intros [H _]; contradiction]. }
  set (s := c0 :: s0).
  set (y := sub_spaces (sub_illegal s)).
  destruct (strip_split y) as (a & b & Hy & Fa & Fb).
  assert (Hsy : spaced y = true) by apply spaced_sub_spaces.
  assert (Hws : ∀ l, Forall (λ c, isspace c = true) l →
                     Forall (λ c, blank c = true) l).
  { intros l Hl. eapply Forall_impl; [exact Hl|]. intros c Hc.
    unfold blank. rewrite Hc. reflexivity. }
  split.
  - intros He. split; [discriminate|].
    apply blank_sub_illegal, blank_sub_spaces. fold y. rewrite Hy.
    destruct (rstrip_by_split dot_or_space (strip y)) as (d & Hd & Fd).
    rewrite He in Hd. cbn [app] in Hd.
    repeat (apply Forall_app; split); auto.
    rewrite Hd. eapply Forall_impl; [exact Fd|]. exact dot_or_space_blank.
  - intros [_ Hb]. apply rstrip_by_all.
    apply blank_sub_illegal, blank_sub_spaces in Hb. fold y in Hb.
    assert (Hsx : spaced (strip y) = true).
    { rewrite Hy in Hsy. apply spaced_app_r in Hsy.
      apply spaced_app_l in Hsy. exact Hsy. }
    apply blank_spaced; [exact Hsx|].
    rewrite Hy in Hb. apply Forall_app in Hb as [_ Hb].
    apply Forall_app in Hb as [Hb _]. exact Hb.
Qed.

(** Sanitizing twice is sanitizing once exactly when the sanitized name
    is not empty. *)
Lemma clean_name_twice_iff s :
  clean_name (clean_name s) = clean_name s ↔ clean_name s ≠ [].
Proof.
  split; [|apply clean_name_stable].
  intros H He. rewrite He in H. discriminate H.
Qed.

(** Scenario of the specification: a star in the parent folder name. *)
Example clean_name_star :
  clean_name (lit "My Photos*Album") = lit "My Photos-Album".
Proof. reflexivity. Qed.

Example clean_name_runs :
  clean_name (lit "  a   b.. . ") = lit "a b".
Proof. reflexivity. Qed.

End SanitizeFacts.

(** ** Facts about the calendar *)

Module CalendarFacts.

Lemma all_from_spec fuel : ∀ i f,
  all_from fuel i f = true →
  ∀ j, i <= j < i + Z.of_nat fuel → f j = true.
Proof.
  induction fuel as [|k IH]; intros i f H j Hj; [lia|].
  cbn [all_from] in H. apply andb_prop in H as [H1 H2].
  destruct (Z.eq_dec j i) as [->|Hne]; [exact H1|].
  apply (IH (i + 1) f H2). lia.
Qed.

Lemma month_day_checked leapyear :
  all_from 365 0 (month_day_ok leapyear) = true.
Proof. destruct leapyear; vm_compute; reflexivity. Qed.

Lemma month_day_spec leapyear n :
  0 <= n < 365 → month_day_ok leapyear n = true.
Proof.
  intros Hn. apply (all_from_spec 365 0 _ (month_day_checked leapyear)).
  simpl. lia.
Qed.

(** Year [400 q + 100 a + 4 b + c + 1]: the days before it and whether it
    is a leap year. *)
Lemma days_before_year_shape q a b c :
  0 <= a <= 3 → 0 <= b <= 24 → 0 <= c <= 3 →
  days_before_year (q * 400 + 1 + a * 100 + b * 4 + c)
  = 146097 * q + 36524 * a + 1461 * b + 365 * c.
Proof.
  intros Ha Hb Hc. unfold days_before_year. cbv zeta.
  replace (q * 400 + 1 + a * 100 + b * 4 + c - 1)
    with (400 * q + 100 * a + 4 * b + c) by ring.
  assert (E4 : (400 * q + 100 * a + 4 * b + c) / 4 = 100 * q + 25 * a + b)
    by (symmetry; apply (Z.div_unique _ 4 _ c); lia).
  assert (E100 : (400 * q + 100 * a + 4 * b + c) / 100 = 4 * q + a)
    by (symmetry; apply (Z.div_unique _ 100 _ (4 * b + c)); lia).
  assert (E400 : (400 * q + 100 * a + 4 * b + c) / 400 = q)
    by (symmetry; apply (Z.div_unique _ 400 _ (100 * a + 4 * b + c)); lia).
  rewrite E4, E100, E400. ring.
Qed.

Lemma is_leap_shape q a b c :
  0 <= a <= 3 → 0 <= b <= 24 → 0 <= c <= 3 →
  is_leap (q * 400 + 1 + a * 100 + b * 4 + c)
  = (c =? 3) && (negb (b =? 24) || (a =? 3)).
Proof.
  intros Ha Hb Hc. unfold is_leap.
  set (y := q * 400 + 1 + a * 100 + b * 4 + c).
  assert (E4 : y mod 4 = (c + 1) mod 4).
  { unfold y. replace (q * 400 + 1 + a * 100 + b * 4 + c)
      with (c + 1 + (100 * q + 25 * a + b) * 4) by ring.
    apply Z_mod_plus_full. }
  assert (E100 : y mod 100 = (4 * b + c + 1) mod 100).
  { unfold y. replace (q * 400 + 1 + a * 100 + b * 4 + c)
      with (4 * b + c + 1 + (4 * q + a) * 100) by ring.
    apply Z_mod_plus_full. }
  assert (E400 : y mod 400 = (100 * a + 4 * b + c + 1) mod 400).
  { unfold y. replace (q * 400 + 1 + a * 100 + b * 4 + c)
      with (100 * a + 4 * b + c + 1 + q * 400) by ring.
    apply Z_mod_plus_full. }
  rewrite E4, E100, E400.
  destruct (Z.eqb_spec c 3) as [->|Hc3].
  - replace ((3 + 1) mod 4) with 0 by reflexivity. cbn [Z.eqb andb].
    destruct (Z.eqb_spec b 24) as [->|Hb24].
    + replace ((4 * 24 + 3 + 1) mod 100) with 0 by reflexivity.
      cbn [Z.eqb negb orb].
      destruct (Z.eqb_spec a 3) as [->|Ha3]; [reflexivity|].
      apply Z.eqb_neq.
      rewrite Z.mod_small by lia. lia.
    + rewrite (Z.mod_small (4 * b + 3 + 1)) by lia.
      destruct (Z.eqb_spec (4 * b + 3 + 1) 0); [lia | reflexivity].
  - rewrite (Z.mod_small (c + 1)) by lia.
    destruct (Z.eqb_spec (c + 1) 0); [lia | reflexivity].
Qed.

(** The last day of a cycle of four years or of four hundred. *)
Lemma last_day_shape q a b :
  0 <= a <= 3 → 0 <= b <= 23 →
  ymd2ord (q * 400 + 1 + a * 100 + b * 4 + 4 - 1) 12 31
  = 146097 * q + 36524 * a + 1461 * b + 1460 + 1
  ∧ days_in_month (q * 400 + 1 + a * 100 + b * 4 + 4 - 1) 12 = 31.
Proof.
  intros Ha Hb. unfold ymd2ord, days_before_month, days_in_month.
  replace (q * 400 + 1 + a * 100 + b * 4 + 4 - 1)
    with (q * 400 + 1 + a * 100 + b * 4 + 3) by ring.
  rewrite days_before_year_shape, is_leap_shape by lia.
  replace (b =? 24) with false by (symmetry; apply Z.eqb_neq; lia).
  change (table DAYS_BEFORE_MONTH 12) with 334.
  change (table DAYS_IN_MONTH 12) with 31.
  change (2 <? 12) with true. change (12 =? 2) with false.
  change (3 =? 3) with true. cbn [andb orb negb]. lia.
Qed.

Lemma last_day_of_cycle q :
  ymd2ord (q * 400 + 1 + 4 * 100 + 0 * 4 + 0 - 1) 12 31
  = 146097 * q + 146096 + 1.
Proof.
  unfold ymd2ord, days_before_month.
  replace (q * 400 + 1 + 4 * 100 + 0 * 4 + 0 - 1)
    with (q * 400 + 1 + 3 * 100 + 24 * 4 + 3) by ring.
  rewrite days_before_year_shape, is_leap_shape by lia.
  change (table DAYS_BEFORE_MONTH 12) with 334.
  change (2 <? 12) with true. change (3 =? 3) with true.
  change (24 =? 24) with true. cbn [andb orb negb]. lia.
Qed.

(** The date of an ordinal has that ordinal, and a month and a day that
    exist. *)
Lemma ord2ymd_spec n :
  let '(y, m, d) := ord2ymd n in
  ymd2ord y m d = n ∧ 1 <= m <= 12 ∧ 1 <= d <= days_in_month y m.
Proof.
  unfold ord2ymd. cbv zeta.
  pose proof (Z.div_mod (n - 1) 146097 ltac:(lia)) as D0.
  pose proof (Z.mod_pos_bound (n - 1) 146097 ltac:(lia)) as B0.
  set (q := (n - 1) / 146097) in *. set (r := (n - 1) mod 146097) in *.
  pose proof (Z.div_mod r 36524 ltac:(lia)) as D1.
  pose proof (Z.mod_pos_bound r 36524 ltac:(lia)) as B1.
  set (a := r / 36524) in *. set (r1 := r mod 36524) in *.
  pose proof (Z.div_mod r1 1461 ltac:(lia)) as D2.
  pose proof (Z.mod_pos_bound r1 1461 ltac:(lia)) as B2.
  set (b := r1 / 1461) in *. set (r2 := r1 mod 1461) in *.
  pose proof (Z.div_mod r2 365 ltac:(lia)) as D3.
  pose proof (Z.mod_pos_bound r2 365 ltac:(lia)) as B3.
  set (c := r2 / 365) in *. set (r3 := r2 mod 365) in *.
  assert (Ha : 0 <= a <= 4) by lia.
  assert (Hb : 0 <= b <= 24) by lia.
  assert (Hc : 0 <= c <= 4) by lia.
  destruct (Z.eqb_spec c 4) as [Ec|Ec]; cbn [orb].
  - (* the last day of a leap year *)
    assert (a <= 3 ∧ b <= 23 ∧ r3 = 0) as (Ha' & Hb' & Hr3) by lia.
    rewrite Ec.
    destruct (last_day_shape q a b ltac:(lia) ltac:(lia)) as [E1 E2].
    rewrite E1, E2. lia.
  - destruct (Z.eqb_spec a 4) as [Ea|Ea].
    + assert (b = 0 ∧ c = 0 ∧ r3 = 0) as (-> & -> & Hr3) by lia.
      rewrite Ea. rewrite last_day_of_cycle.
      split; [lia|]. split; [lia|].
      unfold days_in_month. change (12 =? 2) with false.
      change (table DAYS_IN_MONTH 12) with 31. cbn [andb]. lia.
    + set (leapyear := (c =? 3) && (negb (b =? 24) || (a =? 3))).
      pose proof (month_day_spec leapyear r3 B3) as M.
      unfold month_day_ok, month_day in M. cbv zeta in M.
      set (y := q * 400 + 1 + a * 100 + b * 4 + c).
      assert (Ey : days_before_year y
                   = 146097 * q + 36524 * a + 1461 * b + 365 * c)
        by (apply days_before_year_shape; lia).
      assert (El : is_leap y = leapyear)
        by (apply is_leap_shape; lia).
      match type of M with
      | context [if ?cond then _ else _] => destruct cond
      end;
        unfold ymd2ord, days_before_month, days_in_month;
        rewrite El, Ey;
        repeat (apply andb_prop in M as [M ?]);
        repeat match goal with
               | H : (_ <=? _) = true |- _ => apply Z.leb_le in H
               | H : (_ =? _) = true |- _ => apply Z.eqb_eq in H
               end; lia.
Qed.

Lemma ymd2ord_ord2ymd n :
  let '(y, m, d) := ord2ymd n in ymd2ord y m d = n.
Proof.
  pose proof (ord2ymd_spec n) as H.
  destruct (ord2ymd n) as [[y m] d]. tauto.
Qed.

Lemma days_in_month_le y m : days_in_month y m <= 31.
Proof.
  unfold days_in_month, table, DAYS_IN_MONTH.
  destruct ((m =? 2) && is_leap y); [lia|].
  destruct (Z.to_nat m) as [|[|[|[|[|[|[|[|[|[|[|[|[|[|k]]]]]]]]]]]]]]; simpl; lia.
Qed.

Lemma of_epoch_fields t dt : of_epoch t = Some dt → fields_ok dt.
Proof.
  unfold of_epoch, fields_ok. cbv zeta.
  pose proof (ord2ymd_spec (t / 86400 + EPOCH_ORDINAL)) as F.
  destruct (ord2ymd (t / 86400 + EPOCH_ORDINAL)) as [[y m] d].
  destruct ((y <? MINYEAR) || (MAXYEAR <? y)) eqn:E; [discriminate|].
  intros [= <-]. cbn [year month day hour minute second].
  apply orb_false_iff in E as [E1 E2].
  apply Z.ltb_ge in E1, E2.
  pose proof (Z.mod_pos_bound t 86400 ltac:(lia)) as Hs.
  set (s := t mod 86400) in *.
  split; [lia|]. split; [lia|]. split; [lia|].
  split; [|split]; Z.to_euclidean_division_equations; lia.
Qed.

(** Reading the fields of an instant back as UTC gives the instant. *)
Lemma to_epoch_of_epoch t dt : of_epoch t = Some dt → to_epoch dt = t.
Proof.
  unfold of_epoch, to_epoch. cbv zeta.
  pose proof (ymd2ord_ord2ymd (t / 86400 + EPOCH_ORDINAL)) as F.
  destruct (ord2ymd (t / 86400 + EPOCH_ORDINAL)) as [[y m] d].
  destruct ((y <? MINYEAR) || (MAXYEAR <? y)); [discriminate|].
  intros [= <-]. cbn [year month day hour minute second].
  rewrite F.
  pose proof (Z.mod_pos_bound t 86400 ltac:(lia)) as Hs.
  pose proof (Z.div_mod t 86400 ltac:(lia)) as Ht.
  set (s := t mod 86400) in *. set (dd := t / 86400) in *.
  Z.to_euclidean_division_equations; lia.
Qed.

Lemma days_before_year_succ y :
  days_before_year (y + 1)
  = days_before_year y + 365 + (if is_leap y then 1 else 0).
Proof.
  unfold days_before_year, is_leap. cbv zeta.
  replace (y + 1 - 1) with y by ring.
  destruct (Z.eqb_spec (y mod 4) 0) as [E4|E4];
    destruct (Z.eqb_spec (y mod 100) 0) as [E100|E100];
    destruct (Z.eqb_spec (y mod 400) 0) as [E400|E400];
    cbn [negb andb orb];
    Z.to_euclidean_division_equations; lia.
Qed.

Lemma day_of_year_bound y m d :
  1 <= m <= 12 → 1 <= d <= days_in_month y m →
  1 <= days_before_month y m + d <= 365 + (if is_leap y then 1 else 0).
Proof.
  intros Hm Hd. unfold days_before_month, days_in_month in *.
  assert (m = 1 ∨ m = 2 ∨ m = 3 ∨ m = 4 ∨ m = 5 ∨ m = 6 ∨ m = 7 ∨ m = 8
          ∨ m = 9 ∨ m = 10 ∨ m = 11 ∨ m = 12) as H by lia.
  destruct (is_leap y);
    repeat destruct H as [->|H]; try subst m;
    unfold table, DAYS_BEFORE_MONTH, DAYS_IN_MONTH in Hd |- *;
    simpl in Hd |- *; lia.
Qed.

Lemma days_before_year_low z : z <= 1 → days_before_year z <= 0.
Proof.
  intros Hz. unfold days_before_year. cbv zeta.
  Z.to_euclidean_division_equations; lia.
Qed.

Lemma days_before_year_nonneg z : 1 <= z → 0 <= days_before_year z.
Proof.
  intros Hz. unfold days_before_year. cbv zeta.
  Z.to_euclidean_division_equations; lia.
Qed.

Lemma days_before_year_high z : 10000 <= z → 3652059 <= days_before_year z.
Proof.
  intros Hz. unfold days_before_year. cbv zeta.
  Z.to_euclidean_division_equations; lia.
Qed.

Lemma days_before_year_max z : z <= 10000 → days_before_year z <= 3652059.
Proof.
  intros Hz. destruct (Z.eq_dec z 10000) as [->|Hne]; [vm_compute; discriminate|].
  unfold days_before_year. cbv zeta.
  Z.to_euclidean_division_equations; lia.
Qed.

(** The ordinals whose year [datetime] supports. *)
Lemma ord2ymd_year_range n :
  let '(y, _, _) := ord2ymd n in
  MINYEAR <= y <= MAXYEAR ↔ 1 <= n <= 3652059.
Proof.
  pose proof (ord2ymd_spec n) as H.
  destruct (ord2ymd n) as [[y m] d]. destruct H as (Hn & Hm & Hd).
  unfold ymd2ord in Hn.
  pose proof (day_of_year_bound y m d Hm Hd) as Hdoy.
  pose proof (days_before_year_succ y) as Hs.
  unfold MINYEAR, MAXYEAR. split.
  - intros [H1 H2].
    pose proof (days_before_year_nonneg y H1).
    pose proof (days_before_year_max (y + 1) ltac:(lia)). lia.
  - intros [H1 H2]. split.
    + destruct (Z_le_gt_dec 1 y) as [|Hy]; [assumption|exfalso].
      pose proof (days_before_year_low (y + 1) ltac:(lia)). lia.
    + destruct (Z_le_gt_dec y 9999) as [|Hy]; [assumption|exfalso].
      pose proof (days_before_year_high y ltac:(lia)). lia.
Qed.

(** The instants that have a [datetime]: from the first second of year 1
    to the last second of year 9999. *)
Lemma of_epoch_range t :
  is_Some (of_epoch t) ↔ -62135596800 <= t <= 253402300799.
Proof.
  unfold of_epoch. cbv zeta.
  pose proof (ord2ymd_year_range (t / 86400 + EPOCH_ORDINAL)) as H.
  destruct (ord2ymd (t / 86400 + EPOCH_ORDINAL)) as [[y m] d].
  unfold EPOCH_ORDINAL in H.
  assert (Hdiv : 1 <= t / 86400 + 719163 <= 3652059
                 ↔ -62135596800 <= t <= 253402300799)
    by (Z.to_euclidean_division_equations; lia).
  rewrite <- Hdiv, <- H.
  destruct (y <? MINYEAR) eqn:E1; destruct (MAXYEAR <? y) eqn:E2;
    cbn [orb];
    try apply Z.ltb_lt in E1; try apply Z.ltb_ge in E1;
    try apply Z.ltb_lt in E2; try apply Z.ltb_ge in E2;
    split; intros Hx;
    try (destruct Hx as [x Hx]; discriminate Hx);
    try lia; eauto.
Qed.

Lemma days_before_year_mono a b :
  a <= b → days_before_year a <= days_before_year b.
Proof.
  intros Hab. unfold days_before_year. cbv zeta.
  Z.to_euclidean_division_equations; lia.
Qed.

(** The year of an ordinal is at least [Y] exactly from the first day of
    year [Y] on. *)
Lemma ord2ymd_year_from n Y :
  let '(y, _, _) := ord2ymd n in Y <= y ↔ days_before_year Y < n.
Proof.
  pose proof (ord2ymd_spec n) as H.
  destruct (ord2ymd n) as [[y m] d]. destruct H as (Hn & Hm & Hd).
  unfold ymd2ord in Hn.
  pose proof (day_of_year_bound y m d Hm Hd) as Hdoy.
  pose proof (days_before_year_succ y) as Hs.
  split.
  - intros Hy. pose proof (days_before_year_mono Y y Hy). lia.
  - intros Hlt. destruct (Z_le_gt_dec Y y) as [|Hy]; [assumption|exfalso].
    pose proof (days_before_year_mono (y + 1) Y ltac:(lia)). lia.
Qed.

(** The instants from year 1000 on: those whose year has four digits. *)
Lemma of_epoch_year_1000 t dt :
  of_epoch t = Some dt → (1000 <= year dt ↔ -30610224000 <= t).
Proof.
  unfold of_epoch. cbv zeta.
  pose proof (ord2ymd_year_from (t / 86400 + EPOCH_ORDINAL) 1000) as H.
  destruct (ord2ymd (t / 86400 + EPOCH_ORDINAL)) as [[y m] d].
  destruct ((y <? MINYEAR) || (MAXYEAR <? y)); [discriminate|].
  intros [= <-]. cbn [year]. rewrite H.
  change (days_before_year 1000) with 364877. unfold EPOCH_ORDINAL.
  Z.to_euclidean_division_equations; lia.
Qed.

(** An instant that has a [datetime] passes the checks in front. *)
Lemma fromtimestamp_utc_of_epoch t dt :
  of_epoch t = Some dt → fromtimestamp_utc t = Ok dt.
Proof.
  intros He. assert (Hr : is_Some (of_epoch t)) by eauto.
  apply of_epoch_range in Hr. unfold fromtimestamp_utc.
  rewrite (proj2 (orb_false_iff _ _))
    by (unfold TIME_T_MIN, TIME_T_MAX; split; apply Z.ltb_ge; lia).
  rewrite (proj2 (orb_false_iff _ _))
    by (unfold GMTIME_MIN, GMTIME_MAX; split; apply Z.ltb_ge; lia).
  rewrite He. reflexivity.
Qed.

Lemma fromtimestamp_utc_ok t dt :
  fromtimestamp_utc t = Ok dt → of_epoch t = Some dt.
Proof.
  unfold fromtimestamp_utc.
  destruct ((t <? TIME_T_MIN) || (TIME_T_MAX <? t)); [discriminate|].
  destruct ((t <? GMTIME_MIN) || (GMTIME_MAX <? t)); [discriminate|].
  destruct (of_epoch t); [congruence | discriminate].
Qed.

(** Outside the years of [datetime] the class of the exception goes by
    the size of the timestamp. *)
Lemma fromtimestamp_utc_raises t :
  ¬ (-62135596800 <= t <= 253402300799) →
  fromtimestamp_utc t
  = Raise (if (t <? TIME_T_MIN) || (TIME_T_MAX <? t) then OverflowError
           else if (t <? GMTIME_MIN) || (GMTIME_MAX <? t) then OSError
           else ValueError).
Proof.
  intros Hr. unfold fromtimestamp_utc.
  destruct ((t <? TIME_T_MIN) || (TIME_T_MAX <? t)); [reflexivity|].
  destruct ((t <? GMTIME_MIN) || (GMTIME_MAX <? t)); [reflexivity|].
  destruct (of_epoch t) eqn:E; [|reflexivity].
  exfalso. apply Hr, of_epoch_range. eauto.
Qed.

End CalendarFacts.

(** ** Facts about the embedded date string *)

Module DateStringFacts.
Import CalendarFacts.

Lemma digit_value_digit n : 0 <= n <= 9 → digit_value (digit n) = Some n.
Proof.
  intros Hn.
  assert (n = 0 ∨ n = 1 ∨ n = 2 ∨ n = 3 ∨ n = 4 ∨ n = 5 ∨ n = 6
          ∨ n = 7 ∨ n = 8 ∨ n = 9) as H by lia.
  repeat destruct H as [->|H]; try subst n; reflexivity.
Qed.

Lemma read2_pad2 n :
  0 <= n < 100 →
  read2 (digit (n / 10 mod 10)) (digit (n mod 10)) = Some n.
Proof.
  intros Hn. unfold read2.
  rewrite !digit_value_digit
    by (Z.to_euclidean_division_equations; lia).
  cbn. f_equal. Z.to_euclidean_division_equations; lia.
Qed.

Lemma read2_high n :
  0 <= n < 10000 →
  read2 (digit (n / 1000 mod 10)) (digit (n / 100 mod 10)) = Some (n / 100).
Proof.
  intros Hn. unfold read2.
  rewrite !digit_value_digit
    by (Z.to_euclidean_division_equations; lia).
  cbn. f_equal. Z.to_euclidean_division_equations; lia.
Qed.

Lemma read2_low n :
  0 <= n →
  read2 (digit (n / 10 mod 10)) (digit (n mod 10)) = Some (n mod 100).
Proof.
  intros Hn. unfold read2.
  rewrite !digit_value_digit
    by (Z.to_euclidean_division_equations; lia).
  cbn. f_equal. Z.to_euclidean_division_equations; lia.
Qed.

Lemma year_digits_four n :
  1000 <= n →
  year_digits n = [digit (n / 1000 mod 10); digit (n / 100 mod 10);
                   digit (n / 10 mod 10); digit (n mod 10)].
Proof.
  intros Hn. unfold year_digits.
  rewrite !(proj2 (Z.ltb_ge _ _)) by lia. reflexivity.
Qed.

(** From year 1000 on a reader of the tag gets the fields back. *)
Lemma read_strftime dt :
  fields_ok dt → 1000 <= year dt → read_date_str (strftime dt) = Some dt.
Proof.
  intros (Hy & Hm & Hd & Hh & Hmi & Hs) Hy4.
  pose proof (days_in_month_le (year dt) (month dt)) as Hdim.
  unfold MINYEAR, MAXYEAR in Hy.
  unfold strftime. rewrite year_digits_four by exact Hy4.
  unfold pad2. cbn [app]. unfold read_date_str.
  rewrite !N.eqb_refl. cbn [andb].
  rewrite (read2_high (year dt)), (read2_low (year dt)) by lia.
  rewrite !read2_pad2 by lia.
  cbn [mbind option_bind]. destruct dt as [y m d h mi s].
  cbn [year] in *.
  do 2 f_equal. Z.to_euclidean_division_equations; lia.
Qed.

(** Below year 1000 the string is too short for the form. *)
Lemma strftime_short dt :
  year dt < 1000 →
  (length (strftime dt) < 19)%nat ∧ read_date_str (strftime dt) = None.
Proof.
  intros Hy. unfold strftime, year_digits, pad2.
  rewrite (proj2 (Z.ltb_lt _ _) Hy).
  destruct (year dt <? 100), (year dt <? 10); cbn [app length];
    (split; [lia | reflexivity]).
Qed.

Lemma length_strftime dt :
  1000 <= year dt → length (strftime dt) = 19%nat.
Proof.
  intros Hy. unfold strftime. rewrite year_digits_four by exact Hy.
  reflexivity.
Qed.

End DateStringFacts.

(** ** Facts about the extractors *)

Module ExtractFacts.
Import CalendarFacts DateStringFacts.

Section WithZones.
Variable zoneinfo : str -> option zone.

Lemma lacks_timestamp_field meta :
  lacks_timestamp meta → timestamp_field meta = Ok VNone.
Proof.
  intros (m & -> & [Hm | (taken & Hm & Ht)]);
    unfold timestamp_field; cbn; rewrite Hm; cbn.
  - rewrite lookup_empty. reflexivity.
  - rewrite Ht. reflexivity.
Qed.

(** [None] is returned exactly for a falsy field. *)
Lemma get_taken_time_falsy meta ts tz_name use_utc :
  timestamp_field meta = Ok ts → truthy ts = false →
  get_taken_time zoneinfo meta tz_name use_utc = Ok None.
Proof.
  intros Hts Hf. unfold get_taken_time. rewrite Hts. cbn.
  rewrite Hf. reflexivity.
Qed.

Lemma get_taken_time_truthy meta ts tz_name use_utc :
  timestamp_field meta = Ok ts → truthy ts = true →
  get_taken_time zoneinfo meta tz_name use_utc ≠ Ok None.
Proof.
  intros Hts Ht. unfold get_taken_time. rewrite Hts. cbn.
  rewrite Ht. cbn.
  destruct (int ts) as [t|e]; cbn; [|discriminate].
  destruct (fromtimestamp_utc t) as [dt|]; cbn; [|discriminate].
  destruct use_utc; [discriminate|].
  destruct (lookup_zone zoneinfo tz_name) as [z|]; cbn; [|discriminate].
  destruct (astimezone_naive dt z); discriminate.
Qed.

(** UTC mode: the fields of the instant itself. *)
Lemma get_taken_time_utc meta ts t dt tz_name :
  timestamp_field meta = Ok ts → truthy ts = true → int ts = Ok t →
  of_epoch t = Some dt →
  get_taken_time zoneinfo meta tz_name true = Ok (Some dt).
Proof.
  intros Hts Ht Hi He. unfold get_taken_time. rewrite Hts. cbn.
  rewrite Ht. cbn. rewrite Hi. cbn.
  rewrite (fromtimestamp_utc_of_epoch t dt He). reflexivity.
Qed.

(** Zone mode: the fields of the instant moved by the offset in force,
    or those of the instant itself when the zone or the moved instant is
    not available. *)
Lemma get_taken_time_zone meta ts t dt tz_name :
  timestamp_field meta = Ok ts → truthy ts = true → int ts = Ok t →
  of_epoch t = Some dt →
  get_taken_time zoneinfo meta tz_name false =
    Ok (Some match zoneinfo tz_name with
             | Some z =>
                 match of_epoch (t + z t) with
                 | Some local => local
                 | None => dt
                 end
             | None => dt
             end).
Proof.
  intros Hts Ht Hi He. unfold get_taken_time. rewrite Hts. cbn.
  rewrite Ht. cbn. rewrite Hi. cbn.
  rewrite (fromtimestamp_utc_of_epoch t dt He). cbn.
  unfold lookup_zone. destruct (zoneinfo tz_name) as [z|]; cbn; [|reflexivity].
  unfold astimezone_naive. rewrite (to_epoch_of_epoch t dt He).
  destruct (of_epoch (t + z t)); reflexivity.
Qed.

End WithZones.
End ExtractFacts.

(** ** Facts about paths and [unique_path] *)

Module FsFacts.

Lemma split_point_bound nm i :
  split_point nm = Some i → (0 < i < length nm - 1)%nat.
Proof.
  unfold split_point. destruct (rfind period nm) as [j|]; [|discriminate].
  destruct (0 <? j)%nat eqn:E1; [|discriminate].
  destruct (j <? length nm - 1)%nat eqn:E2; [|discriminate].
  intros [= <-]. apply Nat.ltb_lt in E1, E2. lia.
Qed.

Lemma stem_suffix nm : stem_of nm ++ suffix_of nm = nm.
Proof.
  unfold stem_of, suffix_of. destruct (split_point nm).
  - apply take_drop.
  - apply app_nil_r.
Qed.

Lemma suffix_of_nil : suffix_of [] = [].
Proof. reflexivity. Qed.

(** Cutting the old suffix off the name leaves the stem. *)
Lemma take_stem nm :
  suffix_of nm ≠ [] →
  take (length nm - length (suffix_of nm)) nm = stem_of nm.
Proof.
  unfold stem_of, suffix_of.
  destruct (split_point nm) as [i|] eqn:E; [|congruence].
  intros _. apply split_point_bound in E.
  rewrite length_drop. f_equal. lia.
Qed.

Lemma lit_inj a b : lit a = lit b → a = b.
Proof.
  unfold lit. intros H.
  assert (E : list_ascii_of_string a = list_ascii_of_string b).
  { revert H. generalize (list_ascii_of_string a) (list_ascii_of_string b).
    induction l as [|x l IH]; intros [|y l']; simpl; try discriminate.
    - reflexivity.
    - intros [= H1 H2]. f_equal; [|auto].
      rewrite <- (ascii_N_embedding x), <- (ascii_N_embedding y), H1.
      reflexivity. }
  rewrite <- (string_of_list_ascii_of_string a),
          <- (string_of_list_ascii_of_string b), E.
  reflexivity.
Qed.

Lemma decimal_inj i j : decimal i = decimal j → i = j.
Proof.
  unfold decimal. intros H. apply lit_inj in H.
  apply Unsigned.to_uint_inj.
  pose proof (NilEmpty.usu (Nat.to_uint i)) as Hi.
  pose proof (NilEmpty.usu (Nat.to_uint j)) as Hj.
  rewrite H in Hi. congruence.
Qed.

Lemma name_candidate p i :
  name (candidate p i)
  = stem p ++ lit " (" ++ decimal i ++ lit ")" ++ suffix p.
Proof. unfold name, candidate. apply last_last. Qed.

Lemma candidate_inj p i j : candidate p i = candidate p j → i = j.
Proof.
  intros H. apply (f_equal name) in H. rewrite !name_candidate in H.
  apply app_inv_head in H. apply app_inv_head in H.
  rewrite !app_assoc in H. apply app_inv_tail in H.
  apply app_inv_tail in H. apply decimal_inj. exact H.
Qed.

Lemma numbered_ok p i : name p ≠ [] → numbered p i = Ok (candidate p i).
Proof.
  intros Hn. unfold numbered, with_stem, with_name, candidate.
  destruct (name p); [contradiction|]. cbn [is_empty].
  rewrite <- !app_assoc. reflexivity.
Qed.

Lemma parent_candidate p i : parent (candidate p i) = parent p.
Proof. unfold parent, candidate. apply removelast_last. Qed.

(** The loop returns the first free candidate, if one is in reach. *)
Lemma unique_path_loop_finds fs p : name p ≠ [] → ∀ fuel i,
  (∃ k, (k < fuel)%nat ∧ exists_ fs (candidate p (i + k)) = false) →
  ∃ k, (k < fuel)%nat
       ∧ unique_path_loop fuel fs p i = Return (candidate p (i + k))
       ∧ exists_ fs (candidate p (i + k)) = false
       ∧ ∀ j, (j < k)%nat → exists_ fs (candidate p (i + j)) = true.
Proof.
  intros Hn. induction fuel as [|fuel IH]; intros i (k0 & Hk0 & Hfree);
    [lia|].
  cbn [unique_path_loop]. rewrite numbered_ok by exact Hn.
  destruct (exists_ fs (candidate p i)) eqn:E.
  - destruct k0 as [|k0].
    { rewrite Nat.add_0_r in Hfree. congruence. }
    destruct (IH (S i)) as (k & Hk & Hret & Hfr & Hmin).
    { exists k0. split; [lia|].
      replace (S i + k0)%nat with (i + S k0)%nat by lia. exact Hfree. }
    exists (S k).
    replace (i + S k)%nat with (S i + k)%nat by lia.
    repeat split; [lia | exact Hret | exact Hfr |].
    intros [|j] Hj.
    + rewrite Nat.add_0_r. exact E.
    + replace (i + S j)%nat with (S i + j)%nat by lia. apply Hmin. lia.
  - exists 0%nat. rewrite Nat.add_0_r.
    repeat split; [lia | exact E |]. intros j Hj. lia.
Qed.

(** Among more candidates than there are entries, one is free. *)
Lemma free_candidate (fs : gmap (list (list N)) node) p i :
  ∃ k, (k < S (size fs))%nat ∧ exists_ fs (candidate p (i + k)) = false.
Proof.
  set (taken := λ k, exists_ fs (candidate p (i + k)) = true).
  destruct (decide (Forall taken (seq 0 (S (size fs))))) as [H|H].
  - exfalso.
    set (cs := (λ k, candidate p (i + k)) <$> seq 0 (S (size fs))).
    assert (Hnd : NoDup cs).
    { apply NoDup_fmap_2; [|apply NoDup_seq].
      intros a b Hab. apply candidate_inj in Hab. lia. }
    assert (Hsub : (list_to_set cs : gset (list (list N))) ⊆ dom fs).
    { intros x Hx. apply elem_of_list_to_set in Hx.
      apply list_elem_of_fmap in Hx as (k & -> & Hk).
      rewrite Forall_forall in H. apply H in Hk.
      apply elem_of_dom. unfold taken, exists_ in Hk.
      apply bool_decide_eq_true in Hk. exact Hk. }
    apply subseteq_size in Hsub.
    rewrite size_list_to_set in Hsub by exact Hnd.
    rewrite size_dom in Hsub. unfold cs in Hsub.
    rewrite length_fmap, length_seq in Hsub. lia.
  - apply not_Forall_Exists in H; [|intros k; apply _].
    apply Exists_exists in H as (k & Hk & Hfree).
    apply elem_of_seq in Hk. exists k. split; [lia|].
    unfold taken in Hfree. cbv beta in Hfree.
    apply not_true_is_false. exact Hfree.
Qed.

Lemma exists_loop_terminates fs p fuel i :
  name p ≠ [] → (size fs < fuel)%nat →
  ∃ k, unique_path_loop fuel fs p i = Return (candidate p (i + k))
       ∧ exists_ fs (candidate p (i + k)) = false
       ∧ ∀ j, (j < k)%nat → exists_ fs (candidate p (i + j)) = true.
Proof.
  intros Hn Hf.
  destruct (free_candidate fs p i) as (k0 & Hk0 & Hfree).
  destruct (unique_path_loop_finds fs p Hn fuel i) as (k & _ & H).
  { exists k0. split; [lia | exact Hfree]. }
  exists k. exact H.
Qed.

Lemma lower_char_period c : lower_char c = period → c = period.
Proof.
  unfold lower_char, period.
  destruct ((65 <=? c)%N && (c <=? 90)%N) eqn:E; [|trivial].
  apply andb_prop in E as [E1 E2].
  apply N.leb_le in E1, E2. lia.
Qed.

Lemma lower_keeps_slash s : slash ∈ s → slash ∈ lower s.
Proof.
  intros H. apply list_elem_of_In. apply list_elem_of_In in H.
  unfold lower. change slash with (lower_char slash).
  apply in_map. exact H.
Qed.

Lemma rfind_lt c s i : rfind c s = Some i → (i < length s)%nat.
Proof.
  revert i. induction s as [|x t IH]; intros i; cbn [rfind]; [discriminate|].
  destruct (rfind c t) as [j|].
  - intros [= <-]. specialize (IH j eq_refl). cbn [length]. lia.
  - destruct (x =? c)%N; [|discriminate]. intros [= <-]. cbn [length]. lia.
Qed.

Lemma rfind_app c a b :
  rfind c (a ++ b)
  = match rfind c b with
    | Some i => Some (length a + i)%nat
    | None => rfind c a
    end.
Proof.
  induction a as [|x a IH]; cbn [app rfind length].
  - destruct (rfind c b); reflexivity.
  - rewrite IH. destruct (rfind c b); reflexivity.
Qed.

(** The suffix of a name starts at the last period of the name. *)
Lemma rfind_suffix_of nm :
  suffix_of nm ≠ [] →
  rfind period (suffix_of nm) = Some 0%nat ∧ (2 <= length (suffix_of nm))%nat.
Proof.
  unfold suffix_of. destruct (split_point nm) as [i|] eqn:E; [|congruence].
  intros _. pose proof (split_point_bound nm i E) as Hi.
  unfold split_point in E. destruct (rfind period nm) as [j|] eqn:Ej;
    [|discriminate].
  assert (j = i) as ->.
  { destruct ((0 <? j)%nat && (j <? length nm - 1)%nat); congruence. }
  rewrite length_drop. split; [|lia].
  rewrite <- (take_drop i nm) in Ej. rewrite rfind_app in Ej.
  assert (Hlen : length (take i nm) = i) by (rewrite length_take; lia).
  destruct (rfind period (drop i nm)) as [k|] eqn:Ek.
  - f_equal. injection Ej as Ej. lia.
  - apply rfind_lt in Ej. lia.
Qed.

(** For a name with an extension the numbered name splits where it was
    put together. *)
Lemma split_candidate p i :
  suffix p ≠ [] →
  stem (candidate p i) = stem p ++ lit " (" ++ decimal i ++ lit ")"
  ∧ suffix (candidate p i) = suffix p.
Proof.
  intros Hs. destruct (rfind_suffix_of (name p) Hs) as [Hr Hlen].
  unfold stem at 1, suffix at 1. rewrite name_candidate.
  set (a := stem p ++ lit " (" ++ decimal i ++ lit ")").
  replace (stem p ++ lit " (" ++ decimal i ++ lit ")" ++ suffix p)
    with (a ++ suffix p) by (unfold a; rewrite <- !app_assoc; reflexivity).
  assert (Ha : (2 <= length a)%nat).
  { unfold a. rewrite !length_app.
    change (length (lit " (")) with 2%nat. lia. }
  assert (Hsp : split_point (a ++ suffix p) = Some (length a)).
  { unfold split_point. rewrite rfind_app. fold (suffix p) in Hr.
    unfold suffix in Hr |- *. rewrite Hr, Nat.add_0_r.
    rewrite length_app.
    replace (0 <? length a)%nat with true
      by (symmetry; apply Nat.ltb_lt; lia).
    replace (length a <? length a + length (suffix_of (name p)) - 1)%nat
      with true by (symmetry; apply Nat.ltb_lt; lia).
    reflexivity. }
  unfold stem_of, suffix_of. rewrite Hsp.
  split.
  - rewrite take_app_length. reflexivity.
  - rewrite drop_app_length. reflexivity.
Qed.

(** With the plain path and the paths numbered below [n] taken and the
    one numbered [n] free, the file gets number [n]. *)
Lemma unique_path_nth (fuel : nat) (fs : gmap (list (list N)) node) p n :
  name p ≠ [] → (size fs < fuel)%nat → (1 <= n)%nat →
  exists_ fs p = true →
  (∀ j, (1 <= j < n)%nat → exists_ fs (candidate p j) = true) →
  exists_ fs (candidate p n) = false →
  unique_path fuel fs p = Return (candidate p n).
Proof.
  intros Hn Hfuel Hn1 Hp Hbelow Hfree.
  destruct (exists_loop_terminates fs p fuel 1 Hn Hfuel)
    as (k & Hret & Hfree_k & Hmin).
  unfold unique_path. rewrite Hp. cbn [negb]. rewrite Hret.
  do 2 f_equal.
  destruct (Nat.lt_trichotomy (1 + k) n) as [Hlt|[Heq|Hgt]]; [|exact Heq|].
  - rewrite Hbelow in Hfree_k by lia. discriminate.
  - specialize (Hmin (n - 1)%nat ltac:(lia)).
    replace (1 + (n - 1))%nat with n in Hmin by lia. congruence.
Qed.

Lemma candidate_not_plain p i : name p ≠ [] → candidate p i ≠ p.
Proof.
  intros Hn H. apply (f_equal name) in H. rewrite name_candidate in H.
  apply (f_equal length) in H.
  pose proof (f_equal length (stem_suffix (name p))) as Hss.
  unfold stem, suffix in H. rewrite length_app in Hss.
  repeat rewrite length_app in H.
  change (length (lit " (")) with 2%nat in H. lia.
Qed.

Lemma nth_place_inj p i j :
  name p ≠ [] → nth_place p i = nth_place p j → i = j.
Proof.
  intros Hn. destruct i as [|i], j as [|j]; cbn [nth_place]; intros H.
  - reflexivity.
  - symmetry in H. apply candidate_not_plain in H; [contradiction|exact Hn].
  - apply candidate_not_plain in H; [contradiction|exact Hn].
  - apply candidate_inj in H. exact H.
Qed.

(** Equally named files placed one after the other into a folder that
    holds none of their paths get the plain name and then the numbers 1, 2
    and so on; no placement touches a path that exists. *)
Lemma place_times_numbers (fuel : nat) (fs : gmap (list (list N)) node) p f n :
  name p ≠ [] → (size fs + n <= fuel)%nat →
  (∀ k, fs !! nth_place p k = None) →
  ∃ fs',
    place_times fuel fs p f n = Return (nth_place p <$> seq 0 n, fs')
    ∧ (size fs' = size fs + n)%nat
    ∧ (∀ k, fs' !! nth_place p k
            = if decide (k < n)%nat then Some (File f) else None)
    ∧ (∀ q, is_Some (fs !! q) → fs' !! q = fs !! q).
Proof.
  intros Hn. induction n as [|n IH]; intros Hfuel Hfresh.
  - exists fs. cbn [place_times seq fmap list_fmap].
    split; [reflexivity|]. split; [lia|]. split.
    + intros k. rewrite Hfresh. destruct (decide (k < 0)%nat); [lia|reflexivity].
    + reflexivity.
  - destruct (IH ltac:(lia) Hfresh) as (fs1 & Hrun & Hsize & Hplaces & Hold).
    cbn [place_times]. rewrite Hrun.
    assert (Hfree : fs1 !! nth_place p n = None).
    { rewrite Hplaces. destruct (decide (n < n)%nat); [lia|reflexivity]. }
    assert (Hret : unique_path fuel fs1 p = Return (nth_place p n)).
    { destruct n as [|n'].
      - unfold unique_path, exists_. cbn [nth_place] in Hfree.
        rewrite Hfree.
        rewrite bool_decide_eq_false_2 by (intros [x Hx]; discriminate Hx).
        reflexivity.
      - cbn [nth_place]. apply unique_path_nth; [exact Hn|lia|lia|..].
        + unfold exists_. apply bool_decide_eq_true_2.
          specialize (Hplaces 0%nat). cbn [nth_place] in Hplaces.
          rewrite Hplaces. destruct (decide (0 < S n')%nat); [eauto|lia].
        + intros j Hj. unfold exists_. apply bool_decide_eq_true_2.
          specialize (Hplaces j). destruct j as [|j]; [lia|].
          cbn [nth_place] in Hplaces. rewrite Hplaces.
          destruct (decide (S j < S n')%nat); [eauto|lia].
        + unfold exists_. apply bool_decide_eq_false_2.
          cbn [nth_place] in Hfree. rewrite Hfree.
          intros [x Hx]; discriminate Hx. }
    rewrite Hret.
    exists (<[nth_place p n := File f]> fs1).
    split.
    { do 2 f_equal. rewrite seq_S, fmap_app. reflexivity. }
    split.
    { rewrite map_size_insert_None by exact Hfree. lia. }
    split.
    { intros k. destruct (decide (k = n)) as [->|Hne].
      - rewrite lookup_insert_eq. destruct (decide (n < S n)%nat); [reflexivity|lia].
      - rewrite lookup_insert_ne
          by (intros E; apply nth_place_inj in E; [lia|exact Hn]).
        rewrite Hplaces.
        destruct (decide (k < n)%nat), (decide (k < S n)%nat);
          (reflexivity || lia). }
    intros q Hsome.
    rewrite lookup_insert_ne.
    + apply Hold. exact Hsome.
    + intros <-. rewrite Hfresh in Hsome. destruct Hsome as [x Hx].
      discriminate Hx.
Qed.

(** A suffix that lowers to a recognised extension starts with a period
    and holds no slash. *)
Lemma media_suffix_shape s :
  lower s ∈ ALL_EXTS → (∃ t, s = period :: t) ∧ slash ∉ s.
Proof.
  intros H.
  assert (Hshape : (∃ t, lower s = period :: t) ∧ slash ∉ lower s).
  { unfold ALL_EXTS, PHOTO_EXTS, VIDEO_EXTS in H.
    rewrite !elem_of_union, !elem_of_singleton in H.
    assert (Hno : ∀ e : list N, bool_decide (slash ∈ e) = false → slash ∉ e)
      by (intros e He; exact (proj1 (bool_decide_eq_false _) He)).
    destruct H as [[[[H|H]|H]|H]|[[H|H]|H]]; rewrite H;
      (split; [eexists; reflexivity | apply Hno; reflexivity]). }
  destruct Hshape as [(t & Ht) Hs]. split.
  - destruct s as [|c s']; [discriminate|].
    unfold lower in Ht. cbn [map] in Ht. injection Ht as Hc _.
    apply lower_char_period in Hc. subst c. eexists. reflexivity.
  - intros Hin. apply Hs. apply lower_keeps_slash. exact Hin.
Qed.

(** The sidecar of a media file: its name with [.json] appended after
    the extension. *)
Lemma with_suffix_media p :
  lower (suffix p) ∈ ALL_EXTS →
  with_suffix p (suffix p ++ lit ".json")
  = Ok (parent p ++ [name p ++ lit ".json"]).
Proof.
  intros H. apply media_suffix_shape in H as [(t & Ht) Hs].
  unfold with_suffix.
  assert (E1 : bool_decide (slash ∈ suffix p ++ lit ".json") = false).
  { apply bool_decide_eq_false. rewrite elem_of_app. intros [Hin|Hin].
    - exact (Hs Hin).
    - revert Hin. refine (proj1 (bool_decide_eq_false _) _). reflexivity. }
  rewrite E1. rewrite Ht. cbn [app is_empty negb andb orb].
  rewrite N.eqb_refl. cbn [negb andb orb].
  assert (E2 : bool_decide (period :: t ++ lit ".json" = [period]) = false).
  { apply bool_decide_eq_false. intros [= Hnil].
    apply app_eq_nil in Hnil as [_ Hnil]. discriminate Hnil. }
  rewrite E2.
  assert (Hname : name p ≠ []).
  { intros Hn. unfold suffix in Ht. rewrite Hn in Ht. discriminate Ht. }
  destruct (name p) as [|c nm] eqn:En; [contradiction|].
  cbn [is_empty]. rewrite <- En in *.
  pose proof (take_stem (name p)) as Hstem.
  pose proof (stem_suffix (name p)) as Hss.
  unfold suffix in Ht. rewrite Ht in Hstem, Hss.
  rewrite Hstem by discriminate.
  do 3 f_equal. rewrite <- Hss at 2. rewrite <- app_assoc. reflexivity.
Qed.

End FsFacts.

(** ** Facts about the pipeline *)

Module PipelineFacts.
Import CalendarFacts ExtractFacts FsFacts.

Lemma gps_args_none : gps_args VNone VNone = Ok [].
Proof. reflexivity. Qed.

Lemma date_args_no_gps is_video date_str :
  Forall (λ a, is_gps_arg a = false) (date_args is_video date_str).
Proof.
  unfold date_args. destruct is_video; repeat constructor.
Qed.

(** Without coordinates the command line carries no location word. *)
Lemma build_cmd_without_gps file_path dt is_video :
  ∃ cmd, build_cmd file_path dt VNone VNone is_video = Ok cmd
         ∧ Forall (λ a, is_gps_arg a = false) cmd.
Proof.
  unfold build_cmd. rewrite gps_args_none. cbn [mbind result_bind bind].
  eexists. split; [reflexivity|].
  repeat (apply Forall_app; split); try (repeat constructor).
  apply date_args_no_gps.
Qed.

(** The location words assign no date. *)
Lemma gps_args_date_values lat lon gps :
  gps_args lat lon = Ok gps → date_values gps = [].
Proof.
  unfold gps_args. destruct (negb (is_none lat) && negb (is_none lon));
    [|intros [= <-]; reflexivity].
  destruct (ge_zero lat) as [north|]; cbn [mbind result_bind bind];
    [|discriminate].
  destruct (ge_zero lon) as [east|]; cbn [mbind result_bind bind];
    [|discriminate].
  intros [= <-]. vm_compute. reflexivity.
Qed.

(** Every date word of a command line carries the date string of [dt]:
    four words for a video, three for a photo. *)
Lemma build_cmd_date_values file_path dt lat lon is_video cmd :
  build_cmd file_path dt lat lon is_video = Ok cmd →
  date_values cmd = replicate (if is_video then 4 else 3)%nat (strftime dt).
Proof.
  unfold build_cmd. cbv zeta.
  destruct (gps_args lat lon) as [gps|] eqn:Eg;
    cbn [mbind result_bind bind]; [|discriminate].
  intros [= <-].
  change (date_values (date_args is_video (strftime dt)
                       ++ gps ++ [Target file_path])
          = replicate (if is_video then 4 else 3)%nat (strftime dt)).
  unfold date_values. rewrite !omap_app. fold (date_values gps).
  rewrite (gps_args_date_values lat lon gps Eg).
  destruct is_video; reflexivity.
Qed.

Section WithCollaborators.
Variable zoneinfo : str -> option zone.
Variable json_load : list Byte.byte -> result value.
Variable exiftool : list arg -> file -> file.

(** A successful [write_metadata] leaves the file with both times at
    [utime_epoch]. *)
Lemma write_metadata_times fs file_path f dt lat lon is_video cmd :
  fs !! file_path = Some (File f) →
  build_cmd file_path dt lat lon is_video = Ok cmd →
  write_metadata exiftool fs file_path dt lat lon is_video false
  = (<[file_path := File {| data := data (exiftool cmd f);
                            atime := utime_epoch dt;
                            mtime := utime_epoch dt |}]> fs, Ok tt).
Proof.
  intros Hf Hc. unfold write_metadata. rewrite Hc.
  unfold run_exiftool, utime. rewrite Hf.
  rewrite lookup_insert_eq, insert_insert_eq. reflexivity.
Qed.

(** A file whose record gives no time leaves the world as it was. *)
Lemma process_file_no_time fuel dest w p f meta :
  lower (suffix p) ∈ ALL_EXTS →
  tree w !! (parent p ++ [name p ++ lit ".json"]) = Some (File f) →
  json_load (data f) = Ok meta →
  get_taken_time zoneinfo meta europe_london false = Ok None →
  process_file zoneinfo json_load exiftool fuel dest w p = Return w.
Proof.
  intros Hm Hf Hl Ht. unfold process_file.
  rewrite (bool_decide_eq_true_2 _ Hm). cbn [negb].
  rewrite (with_suffix_media p Hm).
  unfold exists_. rewrite Hf.
  rewrite bool_decide_eq_true_2 by (eexists; reflexivity). cbn [negb].
  unfold try_body, load_meta. rewrite Hf, Hl, Ht.
  destruct w. reflexivity.
Qed.

(** Zone mode, the zone found and the local time within the years of
    [datetime]: the epoch given to [os.utime] is the timestamp moved by
    the offset in force. *)
Lemma zone_mode_epoch meta ts t dt z local tz_name :
  timestamp_field meta = Ok ts → truthy ts = true → int ts = Ok t →
  of_epoch t = Some dt → zoneinfo tz_name = Some z →
  of_epoch (t + z t) = Some local →
  get_taken_time zoneinfo meta tz_name false = Ok (Some local)
  ∧ utime_epoch local = t + z t.
Proof.
  intros Hts Ht Hi He Hz Hl.
  rewrite (get_taken_time_zone zoneinfo meta ts t dt tz_name Hts Ht Hi He).
  rewrite Hz, Hl. split; [reflexivity|].
  unfold utime_epoch. apply to_epoch_of_epoch. exact Hl.
Qed.

Lemma process_file_no_sidecar fuel dest w p :
  lower (suffix p) ∈ ALL_EXTS →
  tree w !! (parent p ++ [name p ++ lit ".json"]) = None →
  process_file zoneinfo json_load exiftool fuel dest w p = Return w.
Proof.
  intros Hm Hf. unfold process_file.
  rewrite (bool_decide_eq_true_2 _ Hm). cbn [negb].
  rewrite (with_suffix_media p Hm).
  unfold exists_. rewrite Hf.
  rewrite bool_decide_eq_false_2 by (intros [x Hx]; discriminate Hx).
  reflexivity.
Qed.

End WithCollaborators.
End PipelineFacts.

(** * The claims of the specification *)

Module Claims.
Import StripFacts SanitizeFacts CalendarFacts DateStringFacts.
Import ExtractFacts FsFacts PipelineFacts.

(** C1.  The claim: the sanitized label is never empty, the fallback
    being substituted whenever sanitizing yields the empty string.  The
    code tests for emptiness before it sanitizes and not after: an album
    titled with a single period, or with spaces only, is sanitized to the
    empty string, and joining the destination with it gives the
    destination root itself. *)
Theorem clean_name_of_period_is_empty :
  clean_name (lit ".") = []
  ∧ clean_name (lit "   ") = []
  ∧ clean_name (lit ". . .") = []
  ∧ choose_folder (VDict {[ lit "albumTitles" := VList [VStr (lit ".")] ]}) img
    = Ok []
  ∧ joinpath out (clean_name (lit ".")) = out.
Proof.
  split; [vm_compute; reflexivity|].
  split; [vm_compute; reflexivity|].
  split; [vm_compute; reflexivity|].
  split; vm_compute; reflexivity.
Qed.

(** C3.  The claim: sanitizing twice is sanitizing once.  At a single
    period the first pass gives the empty string and the second pass
    turns that into the fallback label. *)
Theorem clean_name_twice_differs :
  clean_name (lit ".") = []
  ∧ clean_name (clean_name (lit ".")) = unknown_album
  ∧ clean_name (clean_name (lit ".")) ≠ clean_name (lit ".").
Proof.
  split; [vm_compute; reflexivity|].
  split; [vm_compute; reflexivity|].
  vm_compute. discriminate.
Qed.

(** C2.  The claim: the epoch given to [os.utime] is the timestamp of the
    sidecar whatever zone rendered the wall clock.  [main] renders in
    Europe/London; for a capture at noon UTC on 1 July 2021 the naive
    result is 13:00, and tagging it as UTC gives an epoch one hour after
    the timestamp of the sidecar.  The placed file carries that epoch. *)
Theorem utime_epoch_is_shifted_in_summer :
  timestamp_field summer_meta = Ok (VStr (lit "1625140800"))
  ∧ int (VStr (lit "1625140800")) = Ok summer_ts
  ∧ get_taken_time zoneinfo_2021 summer_meta europe_london false
    = Ok (Some (mk_datetime 2021 7 1 13 0 0))
  ∧ utime_epoch (mk_datetime 2021 7 1 13 0 0) = summer_ts + 3600
  ∧ match process_file zoneinfo_2021 (load_const summer_meta) exiftool_id
            2 out full_world img with
    | Return w' =>
        tree w' !! placed
        = Some (File {| data := []; atime := summer_ts + 3600;
                        mtime := summer_ts + 3600 |})
        ∧ console w' = [Done (lit "IMG_0001.jpg")]
    | _ => False
    end.
Proof.
  split; [vm_compute; reflexivity|].
  split; [vm_compute; reflexivity|].
  split; [vm_compute; reflexivity|].
  split; [vm_compute; reflexivity|].
  vm_compute. split; reflexivity.
Qed.

(** C4.  For a candidate path with a name, [unique_path] returns (given
    more steps than the tree has entries) the candidate itself when
    nothing exists there, and otherwise the path numbered with the least
    [i >= 1] at which nothing exists, whose name is the stem, the number
    in parentheses and the suffix; what it returns never exists; when the
    candidate and the paths numbered [1 .. n-2] exist but the one numbered
    [n-1] does not, the [n]-th file gets number [n-1]; and for a name with
    an extension the numbered path has the numbered stem as its stem. *)
Theorem unique_path_first_free (fuel : nat) (fs : gmap (list (list N)) node)
  (p : list (list N)) :
  name p ≠ [] → (size fs < fuel)%nat →
  (exists_ fs p = false → unique_path fuel fs p = Return p)
  ∧ (exists_ fs p = true →
     ∃ i, (1 <= i)%nat
          ∧ unique_path fuel fs p = Return (candidate p i)
          ∧ numbered p i = Ok (candidate p i)
          ∧ name (candidate p i)
            = stem p ++ lit " (" ++ decimal i ++ lit ")" ++ suffix p
          ∧ exists_ fs (candidate p i) = false
          ∧ ∀ j, (1 <= j < i)%nat → exists_ fs (candidate p j) = true)
  ∧ (∃ r, unique_path fuel fs p = Return r ∧ exists_ fs r = false)
  ∧ (∀ n, (2 <= n)%nat → exists_ fs p = true →
          (∀ j, (1 <= j < n - 1)%nat → exists_ fs (candidate p j) = true) →
          exists_ fs (candidate p (n - 1)) = false →
          unique_path fuel fs p = Return (candidate p (n - 1)))
  ∧ (suffix p ≠ [] →
     ∀ i, stem (candidate p i) = stem p ++ lit " (" ++ decimal i ++ lit ")"
          ∧ suffix (candidate p i) = suffix p).
Proof.
  intros Hn Hfuel.
  destruct (exists_loop_terminates fs p fuel 1 Hn Hfuel)
    as (k & Hret & Hfree & Hmin).
  assert (Hmin' : ∀ j, (1 <= j < 1 + k)%nat →
                       exists_ fs (candidate p j) = true).
  { intros j Hj. replace j with (1 + (j - 1))%nat by lia.
    apply Hmin. lia. }
  unfold unique_path.
  split; [intros ->; reflexivity|].
  split.
  { intros ->. cbn [negb]. exists (1 + k)%nat.
    split; [lia|]. split; [exact Hret|].
    split; [apply numbered_ok; exact Hn|].
    split; [apply name_candidate|]. split; assumption. }
  split.
  { destruct (exists_ fs p) eqn:E; cbn [negb].
    - exists (candidate p (1 + k)). split; assumption.
    - exists p. split; [reflexivity | exact E]. }
  split; [|intros Hs i; apply split_candidate; exact Hs].
  intros n Hn2 Hp Hbelow Hfree_n.
  apply unique_path_nth; auto. lia.
Qed.

(** C5.  With the two coordinates read as [get_gps] reads them (0 when a
    field is missing): when both equal zero the result is the pair of
    [None]s and the command line built from it carries no location word;
    otherwise the result is the pair itself.  A record without location
    data is a case of the first. *)
Theorem zero_location_is_absent (meta geo lat lon : value) :
  dict_get meta (lit "geoData") (VDict ∅) = Ok geo →
  dict_get geo (lit "latitude") (VInt 0) = Ok lat →
  dict_get geo (lit "longitude") (VInt 0) = Ok lon →
  (eq_zero lat && eq_zero lon = true →
     get_gps meta = Ok (VNone, VNone)
     ∧ ∀ file_path dt is_video,
         ∃ cmd, build_cmd file_path dt VNone VNone is_video = Ok cmd
                ∧ Forall (λ a, is_gps_arg a = false) cmd)
  ∧ (eq_zero lat && eq_zero lon = false → get_gps meta = Ok (lat, lon))
  ∧ (∀ m, m !! lit "geoData" = None →
          get_gps (VDict m) = Ok (VNone, VNone)).
Proof.
  intros Hg Hlat Hlon. unfold get_gps.
  split; [|split].
  - intros Hz. rewrite Hg. cbn [mbind result_bind bind].
    rewrite Hlat. cbn [mbind result_bind bind].
    rewrite Hlon. cbn [mbind result_bind bind]. rewrite Hz.
    split; [reflexivity|]. intros. apply build_cmd_without_gps.
  - intros Hz. rewrite Hg. cbn [mbind result_bind bind].
    rewrite Hlat. cbn [mbind result_bind bind].
    rewrite Hlon. cbn [mbind result_bind bind]. rewrite Hz.
    reflexivity.
  - intros m Hm. unfold dict_get. rewrite Hm.
    cbn [mbind result_bind bind]. rewrite !lookup_empty. reflexivity.
Qed.

Section WithCollaborators.
Variable zoneinfo : str -> option zone.
Variable json_load : list Byte.byte -> result value.
Variable exiftool : list arg -> file -> file.


(** C7.  A media file whose sidecar (its name with [.json] appended after
    the extension) does not exist leaves the tree and the console as they
    were, and the walk goes on to the next file. *)
Theorem no_sidecar_skipped (fuel : nat) (dest : list (list N)) (w : world)
  (p : list (list N)) :
  lower (suffix p) ∈ ALL_EXTS →
  tree w !! (parent p ++ [name p ++ lit ".json"]) = None →
  with_suffix p (suffix p ++ lit ".json")
  = Ok (parent p ++ [name p ++ lit ".json"])
  ∧ process_file zoneinfo json_load exiftool fuel dest w p = Return w
  ∧ ∀ rest,
      process_all zoneinfo json_load exiftool fuel dest w (p :: rest)
      = process_all zoneinfo json_load exiftool fuel dest w rest.
Proof.
  intros Hm Hf.
  pose proof (process_file_no_sidecar zoneinfo json_load exiftool
                fuel dest w p Hm Hf) as Hp.
  split; [apply with_suffix_media; exact Hm|].
  split; [exact Hp|].
  intros rest. cbn [process_all]. rewrite Hp. reflexivity.
Qed.

(** C8.  A record without the capture-time field gives [None] in every
    mode, and the file it belongs to leaves the tree and the console as
    they were. *)
Theorem missing_timestamp_skipped (fuel : nat) (dest : list (list N))
  (w : world) (p : list (list N)) (f : file) (meta : value) :
  lower (suffix p) ∈ ALL_EXTS →
  tree w !! (parent p ++ [name p ++ lit ".json"]) = Some (File f) →
  json_load (data f) = Ok meta →
  lacks_timestamp meta →
  (∀ tz_name use_utc,
     get_taken_time zoneinfo meta tz_name use_utc = Ok None)
  ∧ process_file zoneinfo json_load exiftool fuel dest w p = Return w.
Proof.
  intros Hm Hf Hl Hlack.
  assert (Hnone : ∀ tz_name use_utc,
             get_taken_time zoneinfo meta tz_name use_utc = Ok None).
  { intros. eapply get_taken_time_falsy.
    - apply lacks_timestamp_field. exact Hlack.
    - reflexivity. }
  split; [exact Hnone|].
  eapply process_file_no_time; eauto.
Qed.

(** C9.  For a usable timestamp (truthy, an integer, within the years of
    [datetime]) the zone mode always returns a time; when the zone cannot
    be looked up it is the UTC wall clock. *)
Theorem zone_failure_falls_back (meta ts : value) (t : Z)
  (dt_utc : datetime) (tz_name : str) :
  timestamp_field meta = Ok ts → truthy ts = true → int ts = Ok t →
  of_epoch t = Some dt_utc →
  (∃ dt, get_taken_time zoneinfo meta tz_name false = Ok (Some dt))
  ∧ (zoneinfo tz_name = None →
     get_taken_time zoneinfo meta tz_name false = Ok (Some dt_utc)).
Proof.
  intros Hts Ht Hi He.
  rewrite (get_taken_time_zone zoneinfo meta ts t dt_utc tz_name
             Hts Ht Hi He).
  split; [eexists; reflexivity|].
  intros ->. reflexivity.
Qed.

(** C10.  A timestamp field holding the number 0 or the empty string
    gives [None] like a missing field, and the file is skipped, although
    the instant 0 has a [datetime]; the string of the digit 0 is
    converted; and whenever a time is returned the field was truthy. *)
Theorem falsy_timestamp_skipped (fuel : nat) (dest : list (list N))
  (w : world) (p : list (list N)) (f : file) (meta ts : value) :
  lower (suffix p) ∈ ALL_EXTS →
  tree w !! (parent p ++ [name p ++ lit ".json"]) = Some (File f) →
  json_load (data f) = Ok meta →
  timestamp_field meta = Ok ts →
  ts = VInt 0 ∨ ts = VStr [] →
  (∀ tz_name use_utc,
     get_taken_time zoneinfo meta tz_name use_utc = Ok None)
  ∧ process_file zoneinfo json_load exiftool fuel dest w p = Return w
  ∧ of_epoch 0 = Some (mk_datetime 1970 1 1 0 0 0)
  ∧ (∀ meta' tz_name,
       timestamp_field meta' = Ok (VStr (lit "0")) →
       get_taken_time zoneinfo meta' tz_name true
       = Ok (Some (mk_datetime 1970 1 1 0 0 0)))
  ∧ (∀ meta' ts' tz_name use_utc dt,
       timestamp_field meta' = Ok ts' →
       get_taken_time zoneinfo meta' tz_name use_utc = Ok (Some dt) →
       truthy ts' = true).
Proof.
  intros Hm Hf Hl Hts Hfalsy.
  assert (Hf0 : truthy ts = false) by (destruct Hfalsy as [->| ->]; reflexivity).
  assert (Hnone : ∀ tz_name use_utc,
             get_taken_time zoneinfo meta tz_name use_utc = Ok None).
  { intros. eapply get_taken_time_falsy; eassumption. }
  split; [exact Hnone|].
  split; [eapply process_file_no_time; eauto|].
  split; [reflexivity|].
  split.
  - intros meta' tz_name Hts'.
    eapply get_taken_time_utc; [exact Hts'| reflexivity..].
  - intros meta' ts' tz_name use_utc dt Hts' Hget.
    destruct (truthy ts') eqn:E; [reflexivity|].
    rewrite (get_taken_time_falsy zoneinfo meta' ts' tz_name use_utc Hts' E)
      in Hget.
    discriminate Hget.
Qed.

End WithCollaborators.

End Claims.

(** * The claims at concrete inputs *)

Module Witnesses.
Import Claims.

Lemma media_by_test p :
  bool_decide (lower (suffix p) ∈ ALL_EXTS) = true →
  lower (suffix p) ∈ ALL_EXTS.
Proof. apply bool_decide_eq_true_1. Qed.

(** A folder in which the photo and its first numbered copy exist. *)
Lemma unique_path_first_free_witness :
  name placed ≠ []
  ∧ (size (<[candidate placed 1 := File photo]>
            ({[ placed := File photo ]} : gmap (list (list N)) node)) < 3)%nat
  ∧ unique_path 3 (<[candidate placed 1 := File photo]>
                     {[ placed := File photo ]}) placed
    = Return (candidate placed 2).
Proof.
  assert (Hn : name placed ≠ []) by (vm_compute; discriminate).
  assert (Hs : (size (<[candidate placed 1 := File photo]>
                   ({[ placed := File photo ]}
                      : gmap (list (list N)) node)) < 3)%nat)
    by (vm_compute; lia).
  split; [exact Hn|]. split; [exact Hs|].
  destruct (unique_path_first_free 3 _ placed Hn Hs) as (_ & _ & _ & H & _).
  apply (H 3%nat).
  - lia.
  - vm_compute. reflexivity.
  - intros j Hj. assert (j = 1%nat) as -> by lia. vm_compute. reflexivity.
  - vm_compute. reflexivity.
Defined.

(** A record whose location is a float zero and an integer zero. *)
Lemma zero_location_is_absent_witness :
  get_gps (VDict {[ lit "geoData" :=
                      VDict {[ lit "latitude" := VFloat (S754_zero true);
                               lit "longitude" := VInt 0 ]} ]})
  = Ok (VNone, VNone).
Proof.
  refine (proj1 (proj1
    (zero_location_is_absent
       (VDict {[ lit "geoData" :=
                   VDict {[ lit "latitude" := VFloat (S754_zero true);
                            lit "longitude" := VInt 0 ]} ]})
       (VDict {[ lit "latitude" := VFloat (S754_zero true);
                 lit "longitude" := VInt 0 ]})
       (VFloat (S754_zero true)) (VInt 0) _ _ _) _)).
  - vm_compute. reflexivity.
  - vm_compute. reflexivity.
  - vm_compute. reflexivity.
  - reflexivity.
Defined.


(** The photo without its sidecar. *)
Lemma no_sidecar_skipped_witness :
  process_file zoneinfo_2021 (load_const summer_meta) exiftool_id
               2 out bare_world img
  = Return bare_world.
Proof.
  refine (proj1 (proj2
    (no_sidecar_skipped zoneinfo_2021 (load_const summer_meta) exiftool_id
       2 out bare_world img _ _))).
  - apply media_by_test. vm_compute. reflexivity.
  - vm_compute. reflexivity.
Defined.

(** The photo with a sidecar that is an empty object. *)
Lemma missing_timestamp_skipped_witness :
  process_file zoneinfo_2021 (load_const (VDict ∅)) exiftool_id
               2 out full_world img
  = Return full_world.
Proof.
  refine (proj2
    (missing_timestamp_skipped zoneinfo_2021 (load_const (VDict ∅))
       exiftool_id 2 out full_world img sidecar_file (VDict ∅) _ _ _ _)).
  - apply media_by_test. vm_compute. reflexivity.
  - vm_compute. reflexivity.
  - reflexivity.
  - exists ∅. split; [reflexivity|]. left. vm_compute. reflexivity.
Defined.

(** The summer capture with a zone name that the data does not have. *)
Lemma zone_failure_falls_back_witness :
  get_taken_time zoneinfo_2021 summer_meta (lit "Europe/Londn") false
  = Ok (Some (mk_datetime 2021 7 1 12 0 0)).
Proof.
  refine (proj2
    (zone_failure_falls_back zoneinfo_2021 summer_meta
       (VStr (lit "1625140800")) summer_ts (mk_datetime 2021 7 1 12 0 0)
       (lit "Europe/Londn") _ _ _ _) _).
  - vm_compute. reflexivity.
  - reflexivity.
  - vm_compute. reflexivity.
  - vm_compute. reflexivity.
  - vm_compute. reflexivity.
Defined.

(** The photo with a sidecar whose timestamp is the number 0. *)
Lemma falsy_timestamp_skipped_witness :
  process_file zoneinfo_2021 (load_const (meta_of (VInt 0))) exiftool_id
               2 out full_world img
  = Return full_world.
Proof.
  refine (proj1 (proj2
    (falsy_timestamp_skipped zoneinfo_2021 (load_const (meta_of (VInt 0)))
       exiftool_id 2 out full_world img sidecar_file (meta_of (VInt 0))
       (VInt 0) _ _ _ _ _))).
  - apply media_by_test. vm_compute. reflexivity.
  - vm_compute. reflexivity.
  - reflexivity.
  - vm_compute. reflexivity.
  - left. reflexivity.
Defined.

End Witnesses.

(** * Further properties of the code *)

(** ** More facts about [clean_name] *)

Module TidyFacts.
Import StripFacts SanitizeFacts.

Lemma legal_unknown_album : legal unknown_album.
Proof. unfold legal. repeat constructor. Qed.

Lemma tidy_unknown_album : tidy unknown_album.
Proof.
  split; [apply legal_unknown_album|].
  split; [reflexivity|]. split; reflexivity.
Qed.

Lemma tidy_nil : tidy [].
Proof. split; [constructor|]. split; [reflexivity|]. split; exact I. Qed.

(** Every result of [clean_name] is tidy. *)
Lemma clean_name_tidy s : tidy (clean_name s).
Proof.
  unfold clean_name. destruct (is_empty s); [apply tidy_unknown_album|].
  set (x := strip (sub_spaces (sub_illegal s))).
  destruct (strip_spaced_legal (sub_spaces (sub_illegal s)))
    as (Hs & Hl & Hh).
  { apply spaced_sub_spaces. }
  { apply legal_sub_spaces, legal_sub_illegal. }
  fold x in Hs, Hl, Hh.
  destruct (rstrip_by_split dot_or_space x) as (b & Hb & _).
  destruct (rstrip_by_last dot_or_space x) as [E|(l' & c & E & Hc)].
  - rewrite E. apply tidy_nil.
  - set (r := rstrip_by dot_or_space x) in *.
    split; [rewrite Hb in Hl; apply legal_app in Hl; tauto|].
    split; [rewrite Hb in Hs; eapply spaced_app_l; eassumption|].
    split.
    + destruct Hh as [Hx|(h & t & Hx & Hh)].
      * rewrite Hx in Hb. destruct r; [exact I|discriminate Hb].
      * rewrite Hx in Hb. destruct r as [|h' t']; [exact I|].
        injection Hb as <- _. exact Hh.
    + rewrite E, rev_app_distr. exact Hc.
Qed.

(** A tidy name ends outside whitespace. *)
Lemma tidy_last r l c : tidy r → r = l ++ [c] → isspace c = false.
Proof.
  intros (_ & Hs & _ & Hlast) ->. rewrite rev_app_distr in Hlast.
  cbn [rev app] in Hlast.
  destruct (isspace c) eqn:Ec; [|reflexivity].
  rewrite (spaced_only_spaces (l ++ [c]) c Hs) in Hlast;
    [discriminate Hlast | apply in_app_iff; right; left; reflexivity | exact Ec].
Qed.

(** [clean_name] leaves a tidy name that is not empty as it is. *)
Lemma clean_name_of_tidy r : r ≠ [] → tidy r → clean_name r = r.
Proof.
  intros Hne Ht. pose proof Ht as (Hl & Hs & Hhead & Hlast).
  unfold clean_name. destruct r as [|c0 r0] eqn:Er; [contradiction|].
  cbn [is_empty]. rewrite <- Er in *.
  rewrite (sub_illegal_fixed r Hl), (sub_spaces_fixed r Hs).
  destruct (rev r) as [|c l] eqn:Erev.
  { apply (f_equal (@rev N)) in Erev. rewrite rev_involutive in Erev.
    subst r. discriminate Erev. }
  assert (Hr : r = rev l ++ [c]).
  { rewrite <- (rev_involutive r), Erev. reflexivity. }
  pose proof (tidy_last r (rev l) c Ht Hr) as Hc.
  assert (Hstrip : strip r = r).
  { unfold strip, lstrip_by. rewrite Hr at 1.
    rewrite rstrip_by_fixed by exact Hc. rewrite <- Hr.
    rewrite Er. apply drop_while_fixed. exact Hhead. }
  rewrite Hstrip, Hr. apply rstrip_by_fixed. exact Hlast.
Qed.

End TidyFacts.

(** ** More facts about paths and the tree *)

Module TreeFacts.
Import StripFacts SanitizeFacts TidyFacts FsFacts.

(** The folder name is always the result of [clean_name]. *)
Lemma choose_folder_is_clean meta p folder :
  choose_folder meta p = Ok folder → ∃ s, folder = clean_name s.
Proof.
  unfold choose_folder.
  destruct (dict_get meta (lit "albumTitles") (VList [])) as [album|e];
    cbn [mbind result_bind bind]; [|discriminate].
  destruct (truthy album).
  - destruct (first_item album) as [x|e]; cbn [mbind result_bind bind];
      [|discriminate].
    unfold clean_name_obj. destruct (negb (truthy x)).
    + intros [= <-]. exists []. reflexivity.
    + destruct x; try discriminate. intros [= <-]. eexists. reflexivity.
  - intros [= <-]. eexists. reflexivity.
Qed.

Lemma legal_no_separator r : legal r → (slash ∉ r) ∧ (backslash ∉ r).
Proof.
  unfold legal. rewrite Forall_forall. intros H.
  split; intros Hin; apply H in Hin; discriminate Hin.
Qed.

Lemma tidy_not_dots r : tidy r → r ≠ lit "." ∧ r ≠ lit "..".
Proof.
  intros (_ & _ & _ & Hlast). split; intros ->; discriminate Hlast.
Qed.

Lemma numbered_inv p i x :
  numbered p i = Ok x → x = candidate p i ∧ name p ≠ [].
Proof.
  intros H. assert (Hn : name p ≠ []).
  { intros Hn. unfold numbered, with_stem, with_name in H.
    rewrite Hn in H. discriminate H. }
  rewrite (numbered_ok p i Hn) in H. injection H as <-. auto.
Qed.

(** What the loop returns is a numbered path that does not exist. *)
Lemma unique_path_loop_return (fs : gmap (list (list N)) node) p fuel :
  ∀ i r, unique_path_loop fuel fs p i = Return r →
         ∃ k, (i <= k)%nat ∧ r = candidate p k
              ∧ exists_ fs r = false ∧ name p ≠ [].
Proof.
  induction fuel as [|fuel IH]; intros i r; cbn [unique_path_loop];
    [discriminate|].
  destruct (numbered p i) as [x|e] eqn:En; [|discriminate].
  apply numbered_inv in En as [-> Hn].
  destruct (exists_ fs (candidate p i)) eqn:E.
  - intros H. destruct (IH _ _ H) as (k & Hk & Hr). exists k.
    split; [lia | exact Hr].
  - intros [= <-]. exists i. auto.
Qed.

Lemma unique_path_return (fuel : nat) (fs : gmap (list (list N)) node) p r :
  unique_path fuel fs p = Return r →
  exists_ fs r = false
  ∧ (r = p ∨ ∃ k, (1 <= k)%nat ∧ r = candidate p k ∧ name p ≠ []).
Proof.
  unfold unique_path. destruct (exists_ fs p) eqn:E; cbn [negb].
  - intros H. apply unique_path_loop_return in H as (k & Hk & -> & Hf & Hn).
    split; [exact Hf|]. right. exists k. auto.
  - intros [= <-]. auto.
Qed.

(** With steps to spare [unique_path] does not run out of them. *)
Lemma unique_path_enough (fuel : nat) (fs : gmap (list (list N)) node) p :
  (size fs < fuel)%nat → unique_path fuel fs p ≠ OutOfFuel.
Proof.
  intros Hf. unfold unique_path. destruct (exists_ fs p); cbn [negb];
    [|discriminate].
  destruct (name p) as [|c nm] eqn:En.
  - destruct fuel as [|fuel]; [lia|]. cbn [unique_path_loop].
    unfold numbered, with_stem, with_name. rewrite En. discriminate.
  - destruct (exists_loop_terminates fs p fuel 1) as (k & Hret & _);
      [rewrite En; discriminate | exact Hf |].
    rewrite Hret. discriminate.
Qed.

Lemma not_exists_lookup (fs : gmap (list (list N)) node) q :
  exists_ fs q = false ↔ fs !! q = None.
Proof.
  unfold exists_. rewrite bool_decide_eq_false, <- eq_None_not_Some.
  reflexivity.
Qed.

(** [mkdir] keeps what is there and adds at most one entry for each
    component. *)
Lemma mkdir_from_keeps rest : ∀ (fs : gmap (list (list N)) node) done fs',
  mkdir_from fs done rest = Ok fs' →
  (∀ q x, fs !! q = Some x → fs' !! q = Some x)
  ∧ (size fs' <= size fs + length rest)%nat.
Proof.
  induction rest as [|c rest IH]; intros fs done fs'; cbn [mkdir_from].
  - intros [= <-]. split; [auto | lia].
  - destruct (fs !! (done ++ [c])) as [[|f]|] eqn:E.
    + intros H. apply IH in H as [H1 H2]. split; [exact H1|].
      cbn [length]. lia.
    + discriminate.
    + intros H. apply IH in H as [H1 H2]. split.
      * intros q x Hq. apply H1. rewrite lookup_insert_ne; [exact Hq|].
        intros <-. congruence.
      * rewrite map_size_insert_None in H2 by exact E. cbn [length]. lia.
Qed.

Lemma mkdir_p_keeps (fs : gmap (list (list N)) node) p fs' :
  mkdir_p fs p = Ok fs' →
  (∀ q x, fs !! q = Some x → fs' !! q = Some x)
  ∧ (size fs' <= size fs + length p)%nat.
Proof.
  unfold mkdir_p. destruct (fsencode_error p); [discriminate|].
  apply mkdir_from_keeps.
Qed.

Lemma length_joinpath p s : (length (joinpath p s) <= length p + 1)%nat.
Proof.
  unfold joinpath. destruct (is_empty s); [lia|].
  rewrite length_app. cbn [length]. lia.
Qed.

Lemma name_joinpath p s : s ≠ [] → name (joinpath p s) = s.
Proof.
  intros Hs. unfold joinpath, name. destruct s; [contradiction|].
  cbn [is_empty]. apply last_last.
Qed.

Lemma parent_joinpath p s : s ≠ [] → parent (joinpath p s) = p.
Proof.
  intros Hs. unfold joinpath, parent. destruct s; [contradiction|].
  cbn [is_empty]. apply removelast_last.
Qed.

Lemma media_has_name p : lower (suffix p) ∈ ALL_EXTS → name p ≠ [].
Proof.
  intros H. apply media_suffix_shape in H as [(t & Ht) _].
  intros Hn. unfold suffix in Ht. rewrite Hn in Ht. discriminate Ht.
Qed.

(** A path with a name gets a path, given steps to spare. *)
Lemma unique_path_returns (fuel : nat) (fs : gmap (list (list N)) node) p :
  name p ≠ [] → (size fs < fuel)%nat →
  ∃ r, unique_path fuel fs p = Return r.
Proof.
  intros Hn Hf. unfold unique_path. destruct (exists_ fs p); cbn [negb];
    [|eauto].
  destruct (exists_loop_terminates fs p fuel 1 Hn Hf) as (k & Hret & _).
  eauto.
Qed.

End TreeFacts.

(** ** More facts about the pipeline *)

Module WalkFacts.
Import StripFacts SanitizeFacts TidyFacts FsFacts TreeFacts PipelineFacts.
Import CalendarFacts DateStringFacts ExtractFacts.

Section WithCollaborators.
Variable zoneinfo : str -> option zone.
Variable json_load : list Byte.byte -> result value.
Variable exiftool : list arg -> file -> file.

(** [write_metadata] touches its target only, and makes or removes no
    entry. *)
Lemma write_metadata_frame (fs : gmap (list (list N)) node) file_path
  dt lat lon is_video dry :
  (∀ q, q ≠ file_path →
        (write_metadata exiftool fs file_path dt lat lon is_video dry).1 !! q
        = fs !! q)
  ∧ size (write_metadata exiftool fs file_path dt lat lon is_video dry).1
    = size fs
  ∧ (∀ f, fs !! file_path = Some (File f) →
          ∃ f', (write_metadata exiftool fs file_path dt lat lon
                   is_video dry).1 !! file_path = Some (File f')
                ∧ (dry = false →
                   ∀ cmd, build_cmd file_path dt lat lon is_video = Ok cmd →
                          f' = {| data := data (exiftool cmd f);
                                  atime := utime_epoch dt;
                                  mtime := utime_epoch dt |})
                ∧ (dry = true → f' = f)).
Proof.
  unfold write_metadata.
  destruct (build_cmd file_path dt lat lon is_video) as [cmd|e]; cbn [fst].
  2:{ split; [auto|]. split; [auto|]. intros f Hf. exists f.
      split; [exact Hf|]. split; [intros _ cmd' [=] | auto]. }
  destruct dry; cbn [fst].
  { split; [auto|]. split; [auto|]. intros f Hf. exists f.
    split; [exact Hf|]. split; [discriminate | auto]. }
  unfold run_exiftool, utime.
  destruct (fs !! file_path) as [[|f]|] eqn:E.
  - rewrite E. cbn [fst]. split; [auto|]. split; [auto|]. intros f [=].
  - rewrite lookup_insert_eq. cbn [fst]. rewrite insert_insert_eq.
    split; [intros q Hq; apply lookup_insert_ne; congruence|].
    split; [apply map_size_insert_Some; eauto|].
    intros f0 [= <-]. eexists. rewrite lookup_insert_eq.
    split; [reflexivity|]. split; [|discriminate].
    intros _ cmd' [= <-]. reflexivity.
  - rewrite E. cbn [fst]. split; [auto|]. split; [auto|]. intros f [=].
Qed.

(** What the [try] block leaves of the tree: every entry that was there,
    and at most one folder for each component of the destination folder
    and one file more. *)
Lemma try_body_keeps (fuel : nat) (fs : gmap (list (list N)) node) dest p jp fs' o :
  try_body zoneinfo json_load exiftool fuel fs dest p jp = Return (fs', o) →
  (∀ q x, fs !! q = Some x → fs' !! q = Some x)
  ∧ (size fs' <= size fs + length dest + 2)%nat.
Proof.
  assert (Hsame : (∀ q x, fs !! q = Some x → fs !! q = Some x)
                  ∧ (size fs <= size fs + length dest + 2)%nat)
    by (split; [auto | lia]).
  unfold try_body.
  destruct (load_meta json_load fs jp) as [meta|e];
    [|intros [= <- <-]; exact Hsame].
  destruct (get_taken_time zoneinfo meta europe_london false) as [[dt|]|e];
    [| intros [= <- <-]; exact Hsame | intros [= <- <-]; exact Hsame].
  destruct (gps ← get_gps meta; folder ← choose_folder meta p; Ok (gps, folder))
    as [[[lat lon] folder]|e]; [|intros [= <- <-]; exact Hsame].
  cbv zeta.
  destruct (mkdir_p fs (joinpath dest folder)) as [fs1|e] eqn:Emk;
    [|intros [= <- <-]; exact Hsame].
  apply mkdir_p_keeps in Emk as [K1 S1].
  pose proof (length_joinpath dest folder) as Hlen.
  destruct (unique_path fuel fs1 (joinpath (joinpath dest folder) (name p)))
    as [new|e|] eqn:Eu; [| intros [= <- <-]; split; [exact K1 | lia]
                         | discriminate].
  apply unique_path_return in Eu as [Hfresh _].
  apply not_exists_lookup in Hfresh.
  destruct (copy2 fs1 p new) as [fs2|e] eqn:Ec;
    [| intros [= <- <-]; split; [exact K1 | lia]].
  unfold copy2 in Ec. destruct (fs1 !! p) as [[|f]|]; try discriminate Ec.
  injection Ec as <-.
  pose proof (write_metadata_frame (<[new := File f]> fs1) new dt lat lon
                (bool_decide (lower (suffix p) ∈ VIDEO_EXTS)) false)
    as (F1 & F2 & _).
  destruct (write_metadata exiftool (<[new := File f]> fs1) new dt lat lon
              (bool_decide (lower (suffix p) ∈ VIDEO_EXTS)) false)
    as [fs3 [u|e]]; cbn [fst] in F1, F2;
    (intros [= <- <-]; split;
     [ intros q x Hq; apply K1 in Hq;
       assert (q ≠ new) by congruence;
       rewrite F1 by assumption; rewrite lookup_insert_ne by congruence;
       exact Hq
     | rewrite F2, map_size_insert_None by exact Hfresh; lia ]).
Qed.

Lemma try_body_total (fuel : nat) (fs : gmap (list (list N)) node) dest p jp :
  (size fs + length dest + 1 < fuel)%nat →
  ∃ r, try_body zoneinfo json_load exiftool fuel fs dest p jp = Return r.
Proof.
  intros Hfuel. unfold try_body.
  destruct (load_meta json_load fs jp) as [meta|e]; [|eauto].
  destruct (get_taken_time zoneinfo meta europe_london false) as [[dt|]|e];
    [|eauto..].
  destruct (gps ← get_gps meta; folder ← choose_folder meta p; Ok (gps, folder))
    as [[[lat lon] folder]|e]; [|eauto].
  cbv zeta.
  destruct (mkdir_p fs (joinpath dest folder)) as [fs1|e] eqn:Emk; [|eauto].
  apply mkdir_p_keeps in Emk as [_ S1].
  pose proof (length_joinpath dest folder) as Hlen.
  pose proof (unique_path_enough fuel fs1
                (joinpath (joinpath dest folder) (name p)) ltac:(lia)) as Hu.
  destruct (unique_path fuel fs1 (joinpath (joinpath dest folder) (name p)))
    as [new|e|]; [|eauto|contradiction].
  destruct (copy2 fs1 p new) as [fs2|e]; [|eauto].
  destruct (write_metadata exiftool fs2 new dt lat lon
              (bool_decide (lower (suffix p) ∈ VIDEO_EXTS)) false)
    as [fs3 [u|e]]; eauto.
Qed.

(** One file: the world after it has every entry of the world before, at
    most one line more, and a tree that grew by a bounded number of
    entries. *)
Lemma process_file_effect (fuel : nat) dest w p w' :
  process_file zoneinfo json_load exiftool fuel dest w p = Return w' →
  (∀ q x, tree w !! q = Some x → tree w' !! q = Some x)
  ∧ (size (tree w') <= size (tree w) + length dest + 2)%nat
  ∧ (console w' = console w ∨ ∃ l, console w' = console w ++ [l]).
Proof.
  assert (Hsame : (∀ q x, tree w !! q = Some x → tree w !! q = Some x)
                  ∧ (size (tree w) <= size (tree w) + length dest + 2)%nat
                  ∧ (console w = console w
                     ∨ ∃ l, console w = console w ++ [l]))
    by (split; [auto | split; [lia | auto]]).
  unfold process_file.
  destruct (negb (bool_decide (lower (suffix p) ∈ ALL_EXTS)));
    [intros [= <-]; exact Hsame|].
  destruct (with_suffix p (suffix p ++ lit ".json")) as [jp|e];
    [|discriminate].
  destruct (negb (exists_ (tree w) jp)); [intros [= <-]; exact Hsame|].
  destruct (try_body zoneinfo json_load exiftool fuel (tree w) dest p jp)
    as [[fs o]|e|] eqn:Et; [|discriminate..].
  apply try_body_keeps in Et as [K S].
  destruct o; intros [= <-]; cbn [tree console];
    (split; [exact K | split; [exact S | eauto]]).
Qed.

Lemma process_file_total (fuel : nat) dest w p :
  (size (tree w) + length dest + 1 < fuel)%nat →
  ∃ w', process_file zoneinfo json_load exiftool fuel dest w p = Return w'.
Proof.
  intros Hfuel. unfold process_file.
  destruct (bool_decide (lower (suffix p) ∈ ALL_EXTS)) eqn:Em; cbn [negb];
    [|eauto].
  apply bool_decide_eq_true in Em. rewrite (with_suffix_media p Em).
  destruct (negb (exists_ (tree w) _)); [eauto|].
  destruct (try_body_total fuel (tree w) dest p
              (parent p ++ [name p ++ lit ".json"]) Hfuel) as [[fs o] Hr].
  rewrite Hr. destruct o; eauto.
Qed.

End WithCollaborators.
End WalkFacts.

(** * Further properties, stated for the record *)

Module Extras.
Import StripFacts SanitizeFacts TidyFacts FsFacts TreeFacts PipelineFacts.
Import CalendarFacts DateStringFacts ExtractFacts WalkFacts.

(** X1.  Whatever the input, the name that [clean_name] returns holds
    none of the nine characters of the illegal class. *)
Theorem clean_name_has_no_illegal_character (s : list N) :
  Forall (λ c, illegal c = false) (clean_name s).
Proof.
  pose proof (clean_name_tidy s) as (Hl & _).
  unfold legal in Hl. exact Hl.
Qed.

(** X2.  Whatever the input, in the name that [clean_name] returns every
    whitespace character is a single space between two other characters:
    whitespace is in normal form, the name does not start with whitespace,
    and it ends neither with whitespace nor with a period. *)
Theorem clean_name_is_trimmed (s : list N) :
  spaced (clean_name s) = true
  ∧ (∀ c t, clean_name s = c :: t → isspace c = false)
  ∧ (∀ l c, clean_name s = l ++ [c] → isspace c = false ∧ c ≠ period).
Proof.
  pose proof (clean_name_tidy s) as Ht.
  pose proof Ht as (_ & Hs & Hhead & Hlast).
  split; [exact Hs|]. split.
  - intros c t E. rewrite E in Hhead. exact Hhead.
  - intros l c E. split; [eapply tidy_last; eassumption|].
    rewrite E, rev_app_distr in Hlast. cbn [rev app] in Hlast.
    intros ->. discriminate Hlast.
Qed.

(** X3.  [clean_name] returns the empty string exactly for a name that is
    not empty and consists of whitespace and periods only; the fallback
    label is given for the empty name alone. *)
Theorem clean_name_empty_exactly_for_blank_names (s : list N) :
  (clean_name s = [] ↔ s ≠ [] ∧ Forall (λ c, blank c = true) s)
  ∧ (s = [] → clean_name s = unknown_album).
Proof.
  split; [apply clean_name_empty_iff|]. intros ->. reflexivity.
Qed.

(** X4.  Applying [clean_name] twice gives what applying it once gives
    exactly when the first result is not empty. *)
Theorem clean_name_idempotent_unless_empty (s : list N) :
  clean_name (clean_name s) = clean_name s ↔ clean_name s ≠ [].
Proof.
  split.
  - intros H He. rewrite He in H. discriminate H.
  - apply clean_name_stable.
Qed.

(** X5.  The names that [clean_name] returns unchanged are the tidy names
    that are not empty: no illegal character, single spaces only, no
    whitespace in front, neither period nor space at the end. *)
Theorem clean_name_fixed_points (s : list N) :
  clean_name s = s ↔ s ≠ [] ∧ tidy s.
Proof.
  split.
  - intros H. split.
    + intros ->. discriminate H.
    + rewrite <- H. apply clean_name_tidy.
  - intros [Hne Ht]. apply clean_name_of_tidy; assumption.
Qed.

(** X6.  The folder name chosen for a file, from the album titles or from
    the parent folder, holds neither a slash nor a backslash and is
    neither one period nor two: the destination folder is the destination
    itself or a folder directly inside it. *)
Theorem folder_stays_inside_destination (meta : value)
  (p dest : list (list N)) (folder : list N) :
  choose_folder meta p = Ok folder →
  (slash ∉ folder) ∧ (backslash ∉ folder)
  ∧ folder ≠ lit "." ∧ folder ≠ lit ".."
  ∧ (joinpath dest folder = dest
     ∨ (folder ≠ [] ∧ joinpath dest folder = dest ++ [folder])).
Proof.
  intros H. apply choose_folder_is_clean in H as [s ->].
  pose proof (clean_name_tidy s) as Ht.
  pose proof Ht as (Hl & _).
  destruct (legal_no_separator _ Hl) as [H1 H2].
  destruct (tidy_not_dots _ Ht) as [H3 H4].
  repeat (split; [assumption|]).
  unfold joinpath. destruct (clean_name s); cbn [is_empty];
    [left; reflexivity | right; split; [discriminate | reflexivity]].
Qed.

(** X7.  For a candidate with a name, given more steps than the tree has
    entries, [unique_path] returns a path: one that does not exist, lies
    in the folder of the candidate and, when the candidate has an
    extension, has the same extension. *)
Theorem unique_path_stays_in_folder (fuel : nat)
  (fs : gmap (list (list N)) node) (p : list (list N)) :
  name p ≠ [] → (size fs < fuel)%nat →
  ∃ r, unique_path fuel fs p = Return r
       ∧ exists_ fs r = false
       ∧ parent r = parent p
       ∧ (suffix p ≠ [] → suffix r = suffix p).
Proof.
  intros Hn Hfuel.
  destruct (unique_path_returns fuel fs p Hn Hfuel) as [r H].
  exists r. split; [exact H|].
  apply unique_path_return in H as [Hf Hshape].
  split; [exact Hf|].
  destruct Hshape as [->|(k & _ & -> & _)]; [auto|].
  split; [apply parent_candidate|].
  intros Hs. apply split_candidate. exact Hs.
Qed.


Section WithCollaborators.
Variable zoneinfo : str -> option zone.
Variable json_load : list Byte.byte -> result value.
Variable exiftool : list arg -> file -> file.

(** X9.  The body of the loop overwrites nothing.  Whenever it ends for a
    file, every entry of the tree is left as it was (nothing is replaced
    or removed) and the console keeps its lines and gets at most one
    more.  The numbering loop inside it ends whenever the steps allowed
    exceed the entries of the tree and the components of the destination
    by more than one.  Failures of the operating system that do not
    depend on the tree, and of [print], are outside the tree and not
    covered. *)
Theorem process_file_keeps_entries (fuel : nat) (dest : list (list N))
  (w : world) (p : list (list N)) :
  match process_file zoneinfo json_load exiftool fuel dest w p with
  | Return w' =>
      (∀ q x, tree w !! q = Some x → tree w' !! q = Some x)
      ∧ (console w' = console w ∨ ∃ l, console w' = console w ++ [l])
  | Uncaught _ => True
  | OutOfFuel => (fuel <= size (tree w) + length dest + 1)%nat
  end.
Proof.
  destruct (process_file zoneinfo json_load exiftool fuel dest w p)
    as [w'|e|] eqn:H.
  - apply process_file_effect in H as (K & _ & C). auto.
  - exact I.
  - destruct (le_lt_dec fuel (size (tree w) + length dest + 1)) as [Hle|Hlt];
      [exact Hle|].
    destruct (process_file_total zoneinfo json_load exiftool fuel dest w p Hlt)
      as [w' Hr].
    rewrite Hr in H. discriminate H.
Qed.

(** X10.  The walk overwrites nothing.  Whenever the loop over a list of
    files ends, every entry that was in the tree is still there unchanged
    and at most one line has been printed for each file.  The numbering
    loops end whenever the steps allowed exceed the entries of the tree
    by more than the components of the destination plus two for every
    file.  As in X9, failures of the operating system and of [print] are
    not covered. *)
Theorem walk_keeps_entries (fuel : nat) (dest : list (list N))
  (files : list (list (list N))) (w : world) :
  match process_all zoneinfo json_load exiftool fuel dest w files with
  | Return w' =>
      (∀ q x, tree w !! q = Some x → tree w' !! q = Some x)
      ∧ ∃ ls, console w' = console w ++ ls
              ∧ (length ls <= length files)%nat
  | Uncaught _ => True
  | OutOfFuel =>
      (fuel <= size (tree w) + (length dest + 2) * length files)%nat
  end.
Proof.
  revert w. induction files as [|p files IH]; intros w; cbn [process_all].
  - split; [auto|]. exists []. rewrite app_nil_r.
    split; [reflexivity | cbn; lia].
  - pose proof (process_file_total zoneinfo json_load exiftool
                  fuel dest w p) as Htot.
    destruct (process_file zoneinfo json_load exiftool fuel dest w p)
      as [w1|e|] eqn:H1.
    + apply process_file_effect in H1 as (K1 & S1 & C1).
      specialize (IH w1).
      destruct (process_all zoneinfo json_load exiftool fuel dest w1 files)
        as [w'|e|].
      * destruct IH as (K & ls & HC & Hl). split; [auto|].
        destruct C1 as [C1|[l C1]]; rewrite C1 in HC.
        -- exists ls. split; [exact HC | cbn [length]; lia].
        -- exists (l :: ls). rewrite <- app_assoc in HC.
           split; [exact HC | cbn [length]; lia].
      * exact I.
      * cbn [length]. rewrite Nat.mul_succ_r. lia.
    + exact I.
    + cbn [length]. rewrite Nat.mul_succ_r.
      destruct (le_lt_dec fuel (size (tree w) + length dest + 1))
        as [Hle|Hlt]; [lia|].
      destruct (Htot Hlt) as [w' Hr]. discriminate Hr.
Qed.

(** X11.  An exception raised while the record of a media file is read
    (the sidecar does not load, the timestamp is no number or outside the
    years of [datetime], the location or album data are of the wrong
    kind) is printed with the name of the file, and the tree is left as
    it was: nothing is copied. *)
Theorem read_error_is_reported (fuel : nat) (dest : list (list N))
  (w : world) (p : list (list N)) (nd : node) (e : exn) :
  lower (suffix p) ∈ ALL_EXTS →
  tree w !! (parent p ++ [name p ++ lit ".json"]) = Some nd →
  (load_meta json_load (tree w) (parent p ++ [name p ++ lit ".json"])
   = Raise e
   ∨ ∃ meta,
       load_meta json_load (tree w) (parent p ++ [name p ++ lit ".json"])
       = Ok meta
       ∧ (get_taken_time zoneinfo meta europe_london false = Raise e
          ∨ ∃ dt,
              get_taken_time zoneinfo meta europe_london false = Ok (Some dt)
              ∧ (get_gps meta = Raise e
                 ∨ ∃ g, get_gps meta = Ok g
                        ∧ choose_folder meta p = Raise e))) →
  process_file zoneinfo json_load exiftool fuel dest w p
  = Return {| tree := tree w; console := console w ++ [Failed (name p) e] |}.
Proof.
  intros Hm Hjp Hraise. unfold process_file.
  rewrite (bool_decide_eq_true_2 _ Hm). cbn [negb].
  rewrite (with_suffix_media p Hm).
  unfold exists_. rewrite Hjp.
  rewrite bool_decide_eq_true_2 by (eexists; reflexivity). cbn [negb].
  unfold try_body.
  destruct Hraise as [H|(meta & Hl & [H|(dt & Ht & [H|(g & Hg & H)])])].
  - rewrite H. reflexivity.
  - rewrite Hl, H. reflexivity.
  - rewrite Hl, Ht, H. reflexivity.
  - rewrite Hl, Ht, Hg. cbn [mbind result_bind bind]. rewrite H. reflexivity.
Qed.

(** X12.  A media file with a readable record, given steps to spare.
    When its folder cannot be made the failure is printed and the tree is
    left as it was.  Otherwise the file is copied to a path that did not
    exist, inside the folder chosen for it.  When the command line can be
    built, the copy holds what [exiftool] makes of the bytes of the
    source, both its times are the capture time read as UTC, and the check
    mark is printed.  When it cannot (a coordinate that does not compare
    with 0), the copy stays as copied and the failure is printed. *)
Theorem processed_file_is_copied (fuel : nat) (dest : list (list N))
  (w : world) (p : list (list N)) (sf : file) (meta : value) (dt : datetime)
  (lat lon : value) (folder : list N) (f : file) :
  lower (suffix p) ∈ ALL_EXTS →
  tree w !! (parent p ++ [name p ++ lit ".json"]) = Some (File sf) →
  json_load (data sf) = Ok meta →
  get_taken_time zoneinfo meta europe_london false = Ok (Some dt) →
  get_gps meta = Ok (lat, lon) →
  choose_folder meta p = Ok folder →
  tree w !! p = Some (File f) →
  (size (tree w) + length dest + 1 < fuel)%nat →
  match mkdir_p (tree w) (joinpath dest folder) with
  | Raise e =>
      process_file zoneinfo json_load exiftool fuel dest w p
      = Return {| tree := tree w;
                  console := console w ++ [Failed (name p) e] |}
  | Ok fs1 =>
      ∃ new,
        unique_path fuel fs1 (joinpath (joinpath dest folder) (name p))
        = Return new
        ∧ fs1 !! new = None
        ∧ parent new = joinpath dest folder
        ∧ match build_cmd new dt lat lon
                  (bool_decide (lower (suffix p) ∈ VIDEO_EXTS)) with
          | Ok cmd =>
              process_file zoneinfo json_load exiftool fuel dest w p
              = Return {| tree :=
                            <[new := File {| data := data (exiftool cmd f);
                                             atime := utime_epoch dt;
                                             mtime := utime_epoch dt |}]>
                              fs1;
                          console := console w ++ [Done (name p)] |}
          | Raise e =>
              process_file zoneinfo json_load exiftool fuel dest w p
              = Return {| tree := <[new := File f]> fs1;
                          console := console w ++ [Failed (name p) e] |}
          end
  end.
Proof.
  intros Hm Hjp Hload Ht Hg Hc Hsrc Hfuel.
  pose proof (media_has_name p Hm) as Hn.
  destruct (mkdir_p (tree w) (joinpath dest folder)) as [fs1|e] eqn:Hmk.
  2:{ unfold process_file.
      rewrite (bool_decide_eq_true_2 _ Hm). cbn [negb].
      rewrite (with_suffix_media p Hm).
      unfold exists_. rewrite Hjp.
      rewrite bool_decide_eq_true_2 by (eexists; reflexivity). cbn [negb].
      unfold try_body, load_meta. rewrite Hjp, Hload, Ht, Hg.
      cbn [mbind result_bind bind]. rewrite Hc.
      cbn [mbind result_bind bind]. cbv zeta.
      rewrite Hmk. reflexivity. }
  assert (Hsize : (size fs1 < fuel)%nat).
  { pose proof Hmk as Hmk'. apply mkdir_p_keeps in Hmk' as [_ S1].
    pose proof (length_joinpath dest folder). lia. }
  set (target := joinpath (joinpath dest folder) (name p)).
  assert (Hnt : name target ≠ [])
    by (unfold target; rewrite name_joinpath; assumption).
  destruct (unique_path_returns fuel fs1 target Hnt Hsize) as [new Hu].
  pose proof (unique_path_return fuel fs1 target new Hu) as [Hfresh Hshape].
  apply not_exists_lookup in Hfresh.
  assert (Hpar : parent new = joinpath dest folder).
  { destruct Hshape as [->|(k & _ & -> & _)].
    - unfold target. apply parent_joinpath. exact Hn.
    - rewrite parent_candidate. unfold target. apply parent_joinpath.
      exact Hn. }
  exists new. split; [exact Hu|]. split; [exact Hfresh|].
  split; [exact Hpar|].
  assert (Hsrc1 : fs1 !! p = Some (File f)).
  { pose proof Hmk as Hmk'. apply mkdir_p_keeps in Hmk' as [K _].
    apply K. exact Hsrc. }
  assert (Hstart :
    process_file zoneinfo json_load exiftool fuel dest w p
    = match write_metadata exiftool (<[new := File f]> fs1) new dt lat lon
              (bool_decide (lower (suffix p) ∈ VIDEO_EXTS)) false with
      | (fs3, Raise e) =>
          Return {| tree := fs3; console := console w ++ [Failed (name p) e] |}
      | (fs3, Ok _) =>
          Return {| tree := fs3; console := console w ++ [Done (name p)] |}
      end).
  { unfold process_file.
    rewrite (bool_decide_eq_true_2 _ Hm). cbn [negb].
    rewrite (with_suffix_media p Hm).
    unfold exists_. rewrite Hjp.
    rewrite bool_decide_eq_true_2 by (eexists; reflexivity). cbn [negb].
    unfold try_body, load_meta. rewrite Hjp, Hload, Ht, Hg.
    cbn [mbind result_bind bind]. rewrite Hc.
    cbn [mbind result_bind bind]. cbv zeta.
    rewrite Hmk. fold target. rewrite Hu.
    unfold copy2. rewrite Hsrc1.
    destruct (write_metadata exiftool (<[new := File f]> fs1) new dt lat lon
                (bool_decide (lower (suffix p) ∈ VIDEO_EXTS)) false)
      as [fs3 [u|e]]; reflexivity. }
  rewrite Hstart.
  destruct (build_cmd new dt lat lon
              (bool_decide (lower (suffix p) ∈ VIDEO_EXTS))) as [cmd|e] eqn:Eb.
  - rewrite (write_metadata_times exiftool (<[new := File f]> fs1) new f dt
               lat lon _ cmd (lookup_insert_eq _ _ _) Eb).
    rewrite insert_insert_eq. reflexivity.
  - unfold write_metadata. rewrite Eb. reflexivity.
Qed.


(** X14.  In every mode a time that [get_taken_time] returns is a date of
    the calendar with a time of day (year 1 to 9999, a month, a day that
    the month has, hour below 24, minute and second below 60).  Every
    date word of a command line built from it carries its date string.
    From year 1000 on that string has the nineteen characters of the form
    of the tag and reads back as the same fields; below year 1000 the
    year is written without leading zeros, the string is shorter and does
    not read back. *)
Theorem returned_time_is_well_formed (meta : value) (tz_name : list N)
  (use_utc : bool) (dt : datetime) :
  get_taken_time zoneinfo meta tz_name use_utc = Ok (Some dt) →
  fields_ok dt
  ∧ (∀ file_path lat lon is_video cmd,
       build_cmd file_path dt lat lon is_video = Ok cmd →
       date_values cmd
       = replicate (if is_video then 4 else 3)%nat (strftime dt))
  ∧ (1000 <= year dt →
     length (strftime dt) = 19%nat ∧ read_date_str (strftime dt) = Some dt)
  ∧ (year dt < 1000 →
     (length (strftime dt) < 19)%nat ∧ read_date_str (strftime dt) = None).
Proof.
  intros H. assert (Hf : fields_ok dt).
  { revert H. unfold get_taken_time.
    destruct (timestamp_field meta) as [ts|e];
      cbn [mbind result_bind bind]; [|discriminate].
    destruct (negb (truthy ts)); [discriminate|].
    destruct (int ts) as [t|e]; cbn [mbind result_bind bind]; [|discriminate].
    destruct (fromtimestamp_utc t) as [dt0|] eqn:E0;
      cbn [mbind result_bind bind]; [|discriminate].
    apply fromtimestamp_utc_ok in E0.
    destruct use_utc.
    - intros [= <-]. eapply of_epoch_fields; eassumption.
    - unfold lookup_zone. destruct (zoneinfo tz_name) as [z|];
        cbn [mbind result_bind bind].
      + unfold astimezone_naive.
        destruct (of_epoch (to_epoch dt0 + z (to_epoch dt0))) as [loc|] eqn:E1;
          intros [= <-]; eapply of_epoch_fields; eassumption.
      + intros [= <-]. eapply of_epoch_fields; eassumption. }
  split; [exact Hf|].
  split; [intros file_path lat lon is_video cmd Hc;
          eapply build_cmd_date_values; exact Hc|].
  split.
  - intros Hy. split; [apply length_strftime; exact Hy|].
    apply read_strftime; assumption.
  - apply strftime_short.
Qed.

(** X15.  Zone mode with a zone that is found and a local time within
    the years of [datetime]: the time returned is the wall clock of the
    zone, that is, its fields read as UTC are the instant plus the offset
    in force, and this sum is the epoch that [write_metadata] gives to
    [os.utime]. *)
Theorem zone_mode_gives_local_wall_clock (meta ts : value) (t : Z)
  (dt : datetime) (z : zone) (local : datetime) (tz_name : list N) :
  timestamp_field meta = Ok ts → truthy ts = true → int ts = Ok t →
  of_epoch t = Some dt → zoneinfo tz_name = Some z →
  of_epoch (t + z t) = Some local →
  get_taken_time zoneinfo meta tz_name false = Ok (Some local)
  ∧ to_epoch local = t + z t
  ∧ utime_epoch local = t + z t.
Proof.
  intros Hts Ht Hi He Hz Hl.
  destruct (zone_mode_epoch zoneinfo meta ts t dt z local tz_name
              Hts Ht Hi He Hz Hl) as [H1 H2].
  split; [exact H1|]. split; exact H2.
Qed.

(** X16.  For a truthy timestamp with integer value [t] the extractor
    returns a time, in every mode, exactly when [t] lies between the first
    second of year 1 and the last second of year 9999.  Outside it raises
    what [fromtimestamp] raises: [OverflowError] when [t] does not fit a
    64-bit [time_t], [OSError] when [gmtime] cannot hold the year, and
    [ValueError] for the other years. *)
Theorem timestamp_range (meta ts : value) (t : Z) (tz_name : list N)
  (use_utc : bool) :
  timestamp_field meta = Ok ts → truthy ts = true → int ts = Ok t →
  (-62135596800 <= t <= 253402300799 →
     ∃ dt, get_taken_time zoneinfo meta tz_name use_utc = Ok (Some dt))
  ∧ (t < - 2 ^ 63 ∨ 2 ^ 63 <= t →
     get_taken_time zoneinfo meta tz_name use_utc = Raise OverflowError)
  ∧ (- 2 ^ 63 <= t < -67768040609740800
     ∨ 67768036191676799 < t < 2 ^ 63 →
     get_taken_time zoneinfo meta tz_name use_utc = Raise OSError)
  ∧ (-67768040609740800 <= t < -62135596800
     ∨ 253402300799 < t <= 67768036191676799 →
     get_taken_time zoneinfo meta tz_name use_utc = Raise ValueError).
Proof.
  intros Hts Ht Hi.
  assert (Hraise : ∀ e, fromtimestamp_utc t = Raise e →
            get_taken_time zoneinfo meta tz_name use_utc = Raise e).
  { intros e He. unfold get_taken_time. rewrite Hts.
    cbn [mbind result_bind bind]. rewrite Ht. cbn [negb]. rewrite Hi.
    cbn [mbind result_bind bind]. rewrite He. reflexivity. }
  split; [|split; [|split]]; intros Hr.
  - apply of_epoch_range in Hr as [dt He]. destruct use_utc.
    + exists dt. eapply get_taken_time_utc; eassumption.
    + rewrite (get_taken_time_zone zoneinfo meta ts t dt tz_name
                 Hts Ht Hi He). eauto.
  - apply Hraise. rewrite fromtimestamp_utc_raises by lia.
    rewrite (proj2 (orb_true_iff _ _)); [reflexivity|].
    unfold TIME_T_MIN, TIME_T_MAX.
    destruct Hr; [left; apply Z.ltb_lt | right; apply Z.ltb_lt]; lia.
  - apply Hraise. rewrite fromtimestamp_utc_raises by lia.
    rewrite (proj2 (orb_false_iff _ _))
      by (unfold TIME_T_MIN, TIME_T_MAX; split; apply Z.ltb_ge; lia).
    rewrite (proj2 (orb_true_iff _ _)); [reflexivity|].
    unfold GMTIME_MIN, GMTIME_MAX.
    destruct Hr; [left; apply Z.ltb_lt | right; apply Z.ltb_lt]; lia.
  - apply Hraise. rewrite fromtimestamp_utc_raises by lia.
    rewrite (proj2 (orb_false_iff _ _))
      by (unfold TIME_T_MIN, TIME_T_MAX; split; apply Z.ltb_ge; lia).
    rewrite (proj2 (orb_false_iff _ _))
      by (unfold GMTIME_MIN, GMTIME_MAX; split; apply Z.ltb_ge; lia).
    reflexivity.
Qed.

End WithCollaborators.
End Extras.

(** * The further properties at concrete inputs *)

Module ExtraWitnesses.
Import Extras.

(** An album title that tries to climb out of the destination. *)
Lemma folder_stays_inside_destination_witness :
  (slash ∉ lit "..-..-etc") ∧ (backslash ∉ lit "..-..-etc")
  ∧ lit "..-..-etc" ≠ lit "." ∧ lit "..-..-etc" ≠ lit ".."
  ∧ (joinpath out (lit "..-..-etc") = out
     ∨ (lit "..-..-etc" ≠ []
        ∧ joinpath out (lit "..-..-etc") = out ++ [lit "..-..-etc"])).
Proof.
  apply (folder_stays_inside_destination escaping_meta img out
           (lit "..-..-etc")).
  vm_compute. reflexivity.
Defined.

(** The photo placed beside itself: the tree holds it already. *)
Lemma unique_path_stays_in_folder_witness :
  ∃ r, unique_path 5 full_tree img = Return r
       ∧ exists_ full_tree r = false
       ∧ parent r = parent img
       ∧ (suffix img ≠ [] → suffix r = suffix img).
Proof.
  apply (unique_path_stays_in_folder 5 full_tree img).
  - vm_compute. discriminate.
  - vm_compute. lia.
Defined.


(** A sidecar whose timestamp is the text abc. *)
Lemma read_error_is_reported_witness :
  process_file zoneinfo_2021 (load_const broken_meta) exiftool_id
               5 out full_world img
  = Return {| tree := tree full_world;
              console := console full_world
                         ++ [Failed (name img) ValueError] |}.
Proof.
  apply (read_error_is_reported zoneinfo_2021 (load_const broken_meta)
           exiftool_id 5 out full_world img (File sidecar_file) ValueError).
  - apply Witnesses.media_by_test. vm_compute. reflexivity.
  - vm_compute. reflexivity.
  - right. exists broken_meta. split; [vm_compute; reflexivity|].
    left. vm_compute. reflexivity.
Defined.

(** The summer photo: copied into out/Trip under its own name. *)
Lemma processed_file_is_copied_witness :
  match mkdir_p (tree full_world) (joinpath out (lit "Trip")) with
  | Raise e =>
      process_file zoneinfo_2021 (load_const summer_meta) exiftool_id
                   6 out full_world img
      = Return {| tree := tree full_world;
                  console := console full_world ++ [Failed (name img) e] |}
  | Ok fs1 =>
      ∃ new,
        unique_path 6 fs1 (joinpath (joinpath out (lit "Trip")) (name img))
        = Return new
        ∧ fs1 !! new = None
        ∧ parent new = joinpath out (lit "Trip")
        ∧ match build_cmd new (mk_datetime 2021 7 1 13 0 0) VNone VNone
                  (bool_decide (lower (suffix img) ∈ VIDEO_EXTS)) with
          | Ok cmd =>
              process_file zoneinfo_2021 (load_const summer_meta) exiftool_id
                           6 out full_world img
              = Return {| tree :=
                            <[new := File
                                {| data := data (exiftool_id cmd photo);
                                   atime := utime_epoch
                                              (mk_datetime 2021 7 1 13 0 0);
                                   mtime := utime_epoch
                                              (mk_datetime 2021 7 1 13 0 0) |}]>
                              fs1;
                          console := console full_world ++ [Done (name img)] |}
          | Raise e =>
              process_file zoneinfo_2021 (load_const summer_meta) exiftool_id
                           6 out full_world img
              = Return {| tree := <[new := File photo]> fs1;
                          console := console full_world
                                     ++ [Failed (name img) e] |}
          end
  end.
Proof.
  apply (processed_file_is_copied zoneinfo_2021 (load_const summer_meta)
           exiftool_id 6 out full_world img sidecar_file summer_meta
           (mk_datetime 2021 7 1 13 0 0) VNone VNone (lit "Trip") photo).
  - apply Witnesses.media_by_test. vm_compute. reflexivity.
  - vm_compute. reflexivity.
  - reflexivity.
  - vm_compute. reflexivity.
  - vm_compute. reflexivity.
  - vm_compute. reflexivity.
  - vm_compute. reflexivity.
  - vm_compute. lia.
Defined.

(** The summer capture in zone mode. *)
Lemma returned_time_is_well_formed_witness :
  fields_ok (mk_datetime 2021 7 1 13 0 0)
  ∧ (∀ file_path lat lon is_video cmd,
       build_cmd file_path (mk_datetime 2021 7 1 13 0 0) lat lon is_video
       = Ok cmd →
       date_values cmd
       = replicate (if is_video then 4 else 3)%nat
                   (strftime (mk_datetime 2021 7 1 13 0 0)))
  ∧ (1000 <= year (mk_datetime 2021 7 1 13 0 0) →
     length (strftime (mk_datetime 2021 7 1 13 0 0)) = 19%nat
     ∧ read_date_str (strftime (mk_datetime 2021 7 1 13 0 0))
       = Some (mk_datetime 2021 7 1 13 0 0))
  ∧ (year (mk_datetime 2021 7 1 13 0 0) < 1000 →
     (length (strftime (mk_datetime 2021 7 1 13 0 0)) < 19)%nat
     ∧ read_date_str (strftime (mk_datetime 2021 7 1 13 0 0)) = None).
Proof.
  apply (returned_time_is_well_formed zoneinfo_2021 summer_meta
           europe_london false (mk_datetime 2021 7 1 13 0 0)).
  vm_compute. reflexivity.
Defined.

Lemma zone_mode_gives_local_wall_clock_witness :
  get_taken_time zoneinfo_2021 summer_meta europe_london false
  = Ok (Some (mk_datetime 2021 7 1 13 0 0))
  ∧ to_epoch (mk_datetime 2021 7 1 13 0 0)
    = summer_ts + london_2021 summer_ts
  ∧ utime_epoch (mk_datetime 2021 7 1 13 0 0)
    = summer_ts + london_2021 summer_ts.
Proof.
  apply (zone_mode_gives_local_wall_clock zoneinfo_2021 summer_meta
           (VStr (lit "1625140800")) summer_ts
           (mk_datetime 2021 7 1 12 0 0) london_2021
           (mk_datetime 2021 7 1 13 0 0) europe_london).
  - vm_compute. reflexivity.
  - reflexivity.
  - vm_compute. reflexivity.
  - vm_compute. reflexivity.
  - vm_compute. reflexivity.
  - vm_compute. reflexivity.
Defined.

(** A timestamp of twenty-one digits, and the first second of year
    10000. *)
Lemma timestamp_range_witness :
  get_taken_time zoneinfo_2021 (meta_of (VStr (lit "100000000000000000000")))
                 europe_london false
  = Raise OverflowError.
Proof.
  refine (proj1 (proj2
    (timestamp_range zoneinfo_2021
       (meta_of (VStr (lit "100000000000000000000")))
       (VStr (lit "100000000000000000000")) 100000000000000000000
       europe_london false _ _ _)) _).
  - vm_compute. reflexivity.
  - reflexivity.
  - vm_compute. reflexivity.
  - right. lia.
Defined.

End ExtraWitnesses.
